(** * Lemmeric development server: URL rewriting of [dev-server.py]

    The handler [LemmericHTTPRequestHandler] rewrites pretty URLs to the flat
    pages of the front-end before the static file handler of [http.server]
    serves them, and adds three cross-origin headers to each header block.

    Request targets are the ISO-8859-1 decoding of the request line, so a
    character is one of the 256 values of [ascii].  The library functions
    the handler calls ([re.match], [urllib.parse.urlparse],
    [urllib.parse.quote], [send_header], [end_headers]) are modelled in
    modules of their own, from their documented behaviour. *)

From Stdlib Require Import String Ascii List Bool Arith ZArith Lia.
Import ListNotations.
Local Open Scope string_scope.
Local Open Scope bool_scope.
Local Open Scope nat_scope.

(** ** Characters and strings *)

Definition TAB : ascii := "009"%char.
Definition LF : ascii := "010"%char.
Definition CR : ascii := "013"%char.

Definition code (c : ascii) : nat := nat_of_ascii c.

Definition between (lo hi c : ascii) : bool :=
  (code lo <=? code c) && (code c <=? code hi).

Definition is_digit (c : ascii) : bool := between "0" "9" c.
Definition is_upper (c : ascii) : bool := between "A" "Z" c.
Definition is_lower (c : ascii) : bool := between "a" "z" c.
Definition is_alpha (c : ascii) : bool := is_upper c || is_lower c.

(** [c in cs] for a character and a string of characters. *)
Fixpoint mem (c : ascii) (cs : string) : bool :=
  match cs with
  | "" => false
  | String d cs' => Ascii.eqb c d || mem c cs'
  end.

Fixpoint forall_chars (p : ascii -> bool) (s : string) : bool :=
  match s with
  | "" => true
  | String c s' => p c && forall_chars p s'
  end.

(** Truth value of a Python string: non-empty. *)
Definition truthy (s : string) : bool :=
  match s with "" => false | _ => true end.

(** [s.startswith(w)], returning what follows [w]. *)
Fixpoint strip_prefix (w s : string) : option string :=
  match w with
  | "" => Some s
  | String c w' =>
      match s with
      | "" => None
      | String d s' => if Ascii.eqb c d then strip_prefix w' s' else None
      end
  end.

(** The longest prefix whose characters satisfy [p], and the rest. *)
Fixpoint span (p : ascii -> bool) (s : string) : string * string :=
  match s with
  | "" => ("", "")
  | String c s' =>
      if p c then let '(r, t) := span p s' in (String c r, t) else ("", s)
  end.

(** [s.split(c, 1)] when [c] occurs in [s]. *)
Fixpoint split1 (c : ascii) (s : string) : option (string * string) :=
  match s with
  | "" => None
  | String d s' =>
      if Ascii.eqb d c then Some ("", s')
      else match split1 c s' with
           | Some (a, b) => Some (String d a, b)
           | None => None
           end
  end.

Fixpoint filter_chars (p : ascii -> bool) (s : string) : string :=
  match s with
  | "" => ""
  | String c s' => if p c then String c (filter_chars p s') else filter_chars p s'
  end.

Fixpoint map_chars (f : ascii -> ascii) (s : string) : string :=
  match s with
  | "" => ""
  | String c s' => String (f c) (map_chars f s')
  end.

(** ** [re]: the fragment of Python regular expressions the handler uses *)

Module Re.

(** A set of characters: an ordinary character, [\d], or [[^...]].
    On the 256 characters of a request line [\d] is [0-9]. *)
Inductive charset :=
| Chr (c : ascii)
| Digit
| NoneOf (cs : string).

Definition member (cs : charset) (c : ascii) : bool :=
  match cs with
  | Chr d => Ascii.eqb c d
  | Digit => is_digit c
  | NoneOf ds => negb (mem c ds)
  end.

(** [^], [$], [x], [x?] and the capturing group [(x+)]. *)
Inductive atom :=
| Bol
| Eol
| One (cs : charset)
| Opt (cs : charset)
| Group (cs : charset).

Definition regex := list atom.

(** [$] without MULTILINE: the end of the string, or just before the
    newline that ends the string. *)
Definition at_end (s : string) : bool :=
  match s with
  | "" => true
  | String c "" => Ascii.eqb c LF
  | _ => false
  end.

Section Greedy.
Variable cs : charset.
(** The rest of the pattern, given the captured text, the position and
    the remaining input. *)
Variable k : string -> nat -> string -> option (list string).

(** [(x+)]: greedy, the longest run first, then backtracking to
    shorter ones. [taken] is what the group holds so far. *)
Fixpoint plus (taken : string) (pos : nat) (s : string)
  : option (list string) :=
  match s with
  | "" => None
  | String c s' =>
      if member cs c then
        let taken' := taken ++ String c "" in
        match plus taken' (S pos) s' with
        | Some m => Some m
        | None => k taken' (S pos) s'
        end
      else None
  end.
End Greedy.

(** Backtracking matcher; the result is the list of captured groups. *)
Fixpoint run (r : regex) (pos : nat) (s : string) (groups : list string)
  {struct r} : option (list string) :=
  match r with
  | [] => Some groups
  | a :: r' =>
      match a with
      | Bol => if pos =? 0 then run r' pos s groups else None
      | Eol => if at_end s then run r' pos s groups else None
      | One cs =>
          match s with
          | String c s' =>
              if member cs c then run r' (S pos) s' groups else None
          | "" => None
          end
      | Opt cs =>
          match s with
          | String c s' =>
              if member cs c then
                match run r' (S pos) s' groups with
                | Some m => Some m
                | None => run r' pos s groups
                end
              else run r' pos s groups
          | "" => run r' pos s groups
          end
      | Group cs =>
          plus cs (fun g pos' s' => run r' pos' s' (groups ++ [g])%list) "" pos s
      end
  end.

(** [re.match(pattern, string)]: [None], or the groups of the match. *)
Definition match_ (r : regex) (s : string) : option (list string) :=
  run r 0 s [].

(** [m.group(1)]. *)
Definition group1 (m : list string) : string := nth 0 m "".

(** A run of ordinary characters. *)
Fixpoint lit (w : string) : regex :=
  match w with
  | "" => []
  | String c w' => One (Chr c) :: lit w'
  end.

End Re.

(** ** [urllib.parse] *)

Module Urllib.

Record ParseResult := mkParseResult {
  scheme : string;
  netloc : string;
  path : string;
  params : string;
  query : string;
  fragment : string
}.

(** [_WHATWG_C0_CONTROL_OR_SPACE]: code points 0 to 32. *)
Definition c0_or_space (c : ascii) : bool := code c <=? 32.

(** [url.lstrip(_WHATWG_C0_CONTROL_OR_SPACE)]. *)
Fixpoint lstrip (s : string) : string :=
  match s with
  | "" => ""
  | String c s' => if c0_or_space c then lstrip s' else s
  end.

(** [_UNSAFE_URL_BYTES_TO_REMOVE]: tab, carriage return, newline. *)
Definition unsafe (c : ascii) : bool :=
  Ascii.eqb c TAB || Ascii.eqb c CR || Ascii.eqb c LF.

Definition remove_unsafe (s : string) : string :=
  filter_chars (fun c => negb (unsafe c)) s.

(** [scheme_chars]: letters, digits, [+], [-], [.]. *)
Definition scheme_char (c : ascii) : bool :=
  is_alpha c || is_digit c || mem c "+-.".

Definition lower (c : ascii) : ascii :=
  if is_upper c then ascii_of_nat (code c + 32) else c.

(** The scheme of [url] and what follows its colon. *)
Definition split_scheme (url : string) : string * string :=
  match split1 ":" url with
  | Some (String c0 w, rest) =>
      if is_alpha c0 && forall_chars scheme_char (String c0 w)
      then (map_chars lower (String c0 w), rest)
      else ("", url)
  | _ => ("", url)
  end.

(** [_splitnetloc(url, 2)] on what follows the two slashes. *)
Definition splitnetloc (s : string) : string * string :=
  span (fun c => negb (mem c "/?#")) s.

Definition uses_params : list string :=
  [""; "ftp"; "hdl"; "prospero"; "http"; "imap"; "https"; "shttp"; "rtsp";
   "rtspu"; "sip"; "sips"; "mms"; "sftp"; "tel"].

(** The first component of [_splitparams(url)]: [url] up to the first
    [;] at or after its last [/]. *)
Fixpoint splitparams_path (url : string) : string :=
  match url with
  | "" => ""
  | String c r =>
      if mem "/" r then String c (splitparams_path r)
      else if Ascii.eqb c ";" then ""
      else String c (splitparams_path r)
  end.

Fixpoint splitparams_params (url : string) : string :=
  match url with
  | "" => ""
  | String c r =>
      if mem "/" r then splitparams_params r
      else if Ascii.eqb c ";" then r
      else splitparams_params r
  end.

Section Parse.
(** The host checks of [urlsplit] (brackets of an IPv6 literal, NFKC
    normalisation): [false] where the library raises [ValueError]. *)
Variable netloc_ok : string -> bool.

(** The authority of [urlsplit]: when the URL starts with two slashes,
    [_splitnetloc] and the host checks. *)
Definition split_authority (url : string) : option (string * string) :=
  match url with
  | String "/" (String "/" r) =>
      let '(netloc, rest) := splitnetloc r in
      if netloc_ok netloc then Some (netloc, rest) else None
  | _ => Some ("", url)
  end.

(** [if c in url: url, x = url.split(c, 1)], with [x = ''] otherwise. *)
Definition cut (c : ascii) (url : string) : string * string :=
  match split1 c url with
  | Some p => p
  | None => (url, "")
  end.

(** [urlparse(url)]; [None] stands for [ValueError]. *)
Definition urlparse (url : string) : option ParseResult :=
  let url := lstrip url in
  let url := remove_unsafe url in
  let '(scheme, url) := split_scheme url in
  match split_authority url with
  | None => None
  | Some (netloc, url) =>
      let '(url, fragment) := cut "#" url in
      let '(url, query) := cut "?" url in
      let '(url, params) :=
        if existsb (String.eqb scheme) uses_params && mem ";" url
        then (splitparams_path url, splitparams_params url)
        else (url, "") in
      Some (mkParseResult scheme netloc url params query fragment)
  end.
End Parse.

(** [_ALWAYS_SAFE]: letters, digits, [_], [.], [-], [~]. *)
Definition always_safe (c : ascii) : bool :=
  is_alpha c || is_digit c || mem c "_.-~".

(** The UTF-8 encoding of a code point below 256. *)
Definition utf8 (c : ascii) : string :=
  let n := code c in
  if n <? 128 then String c ""
  else String (ascii_of_nat (192 + n / 64))
         (String (ascii_of_nat (128 + n mod 64)) "").

Definition hex_digit (n : nat) : ascii :=
  if n <? 10 then ascii_of_nat (48 + n) else ascii_of_nat (55 + n).

(** ['%{:02X}'.format(b)]. *)
Definition percent (b : ascii) : string :=
  String "%" (String (hex_digit (code b / 16))
                (String (hex_digit (code b mod 16)) "")).

Definition quote_byte (b : ascii) : string :=
  if always_safe b || Ascii.eqb b "/" then String b "" else percent b.

Fixpoint concat_map (f : ascii -> string) (s : string) : string :=
  match s with
  | "" => ""
  | String c s' => f c ++ concat_map f s'
  end.

(** [quote(string)] with the default [safe='/']: the UTF-8 bytes of the
    string, each one kept when safe and percent-encoded otherwise. *)
Definition quote (s : string) : string :=
  concat_map quote_byte (concat_map utf8 s).

End Urllib.

(** ** The request handler *)

(** What the handler reads and writes: [self.path], the lines printed to
    standard output, [self._headers_buffer], the bytes written to
    [self.wfile], and [self.request_version] as [parse_request] left it
    ([HTTP/0.9] for a request line without version). *)
Record handler := mkHandler {
  self_path : string;
  stdout : list string;
  headers_buffer : list string;
  wfile : string;
  request_version : string
}.

Definition set_path (p : string) (self : handler) : handler :=
  mkHandler p (stdout self) (headers_buffer self) (wfile self)
            (request_version self).

Definition print (line : string) (self : handler) : handler :=
  mkHandler (self_path self) (stdout self ++ [line])%list
            (headers_buffer self) (wfile self) (request_version self).

(** The patterns of [do_GET], in the order of its [if]/[elif] chain. *)
Module Pattern.
Import Re.
(** [^/communities/?$] *)
Definition communities : regex :=
  Bol :: (lit "/communities" ++ [Opt (Chr "/"); Eol])%list.
(** [^/post/(\d+)/?$] *)
Definition post : regex :=
  Bol :: (lit "/post/" ++ [Group Digit; Opt (Chr "/"); Eol])%list.
(** [^/u/([^/?]+)/?$] *)
Definition user : regex :=
  Bol :: (lit "/u/" ++ [Group (NoneOf "/?"); Opt (Chr "/"); Eol])%list.
(** [^/c/([^/?]+)/?$] *)
Definition community : regex :=
  Bol :: (lit "/c/" ++ [Group (NoneOf "/?"); Opt (Chr "/"); Eol])%list.
(** [^/search/?$] *)
Definition search : regex :=
  Bol :: (lit "/search" ++ [Opt (Chr "/"); Eol])%list.
(** [^/create-post/?$] *)
Definition create_post : regex :=
  Bol :: (lit "/create-post" ++ [Opt (Chr "/"); Eol])%list.
(** [^/create-community/?$] *)
Definition create_community : regex :=
  Bol :: (lit "/create-community" ++ [Opt (Chr "/"); Eol])%list.
(** [^/inbox/?$] *)
Definition inbox : regex :=
  Bol :: (lit "/inbox" ++ [Opt (Chr "/"); Eol])%list.
(** [^/settings/?$] *)
Definition settings : regex :=
  Bol :: (lit "/settings" ++ [Opt (Chr "/"); Eol])%list.
End Pattern.

(** The rewriting stage of [do_GET]: the [if]/[elif] chain on the parsed
    [path] and [query], acting on [self.path] and standard output. *)
Definition route (path query : string) (self : handler) : handler :=
  match Re.match_ Pattern.communities path with
  | Some _ =>
      print ("DEV: Rewriting " ++ path ++ " -> /communities.html")
        (set_path (if truthy query then "/communities.html?" ++ query
                   else "/communities.html") self)
  | None =>
  match Re.match_ Pattern.post path with
  | Some post_match =>
      let post_id := Re.group1 post_match in
      let new_query := "id=" ++ post_id in
      let new_query :=
        if truthy query then new_query ++ "&" ++ query else new_query in
      print ("DEV: Rewriting " ++ path ++ " -> /post.html?" ++ new_query)
        (set_path ("/post.html?" ++ new_query) self)
  | None =>
  match Re.match_ Pattern.user path with
  | Some user_match =>
      let username := Re.group1 user_match in
      let new_query := "username=" ++ Urllib.quote username in
      let new_query :=
        if truthy query then new_query ++ "&" ++ query else new_query in
      print ("DEV: Rewriting " ++ path ++ " -> /user.html?" ++ new_query)
        (set_path ("/user.html?" ++ new_query) self)
  | None =>
  match Re.match_ Pattern.community path with
  | Some community_match =>
      let community_name := Re.group1 community_match in
      let new_query := "name=" ++ Urllib.quote community_name in
      let new_query :=
        if truthy query then new_query ++ "&" ++ query else new_query in
      print ("DEV: Rewriting " ++ path ++ " -> /community.html?" ++ new_query)
        (set_path ("/community.html?" ++ new_query) self)
  | None =>
  match Re.match_ Pattern.search path with
  | Some _ =>
      print ("DEV: Rewriting " ++ path ++ " -> /search.html")
        (set_path (if truthy query then "/search.html?" ++ query
                   else "/search.html") self)
  | None =>
  match Re.match_ Pattern.create_post path with
  | Some _ =>
      print ("DEV: Rewriting " ++ path ++ " -> /create_post.html")
        (set_path (if truthy query then "/create_post.html?" ++ query
                   else "/create_post.html") self)
  | None =>
  match Re.match_ Pattern.create_community path with
  | Some _ =>
      print ("DEV: Rewriting " ++ path ++ " -> /create-community.html")
        (set_path (if truthy query then "/create-community.html?" ++ query
                   else "/create-community.html") self)
  | None =>
  match Re.match_ Pattern.inbox path with
  | Some _ =>
      print ("DEV: Rewriting " ++ path ++ " -> /inbox.html")
        (set_path (if truthy query then "/inbox.html?" ++ query
                   else "/inbox.html") self)
  | None =>
  match Re.match_ Pattern.settings path with
  | Some _ =>
      print ("DEV: Rewriting " ++ path ++ " -> /settings.html")
        (set_path (if truthy query then "/settings.html?" ++ query
                   else "/settings.html") self)
  | None =>
  if String.eqb path "/" then set_path "/index.html" self
  else self
  end end end end end end end end end.

(** The ten rules of the chain, and the test each one makes on the path. *)
Inductive rule :=
| Communities | Post | User | Community | Search
| CreatePost | CreateCommunity | Inbox | Settings | Root.

Definition rules : list rule :=
  [Communities; Post; User; Community; Search;
   CreatePost; CreateCommunity; Inbox; Settings; Root].

Definition is_some {A} (o : option A) : bool :=
  match o with Some _ => true | None => false end.

Definition rule_matches (r : rule) (path : string) : bool :=
  match r with
  | Communities => is_some (Re.match_ Pattern.communities path)
  | Post => is_some (Re.match_ Pattern.post path)
  | User => is_some (Re.match_ Pattern.user path)
  | Community => is_some (Re.match_ Pattern.community path)
  | Search => is_some (Re.match_ Pattern.search path)
  | CreatePost => is_some (Re.match_ Pattern.create_post path)
  | CreateCommunity => is_some (Re.match_ Pattern.create_community path)
  | Inbox => is_some (Re.match_ Pattern.inbox path)
  | Settings => is_some (Re.match_ Pattern.settings path)
  | Root => String.eqb path "/"
  end.

(** The nine pretty-URL rules: every rule but the root one. *)
Definition pretty (r : rule) : bool :=
  match r with Root => false | _ => true end.

(** First match wins: the first rule of the chain whose test succeeds. *)
Definition first_match (path : string) : option rule :=
  find (fun r => rule_matches r path) rules.

(** ** Response headers *)

Definition CRLF : string := String CR (String LF "").

(** [self.request_version != 'HTTP/0.9']: the response has a status line
    and headers. *)
Definition headed (self : handler) : bool :=
  negb (String.eqb (request_version self) "HTTP/0.9").

(** [BaseHTTPRequestHandler.send_header]: unless the request is HTTP/0.9,
    the header line joins the headers buffer. *)
Definition send_header (keyword value : string) (self : handler) : handler :=
  if headed self then
    mkHandler (self_path self) (stdout self)
      (headers_buffer self ++ [(keyword ++ ": " ++ value ++ CRLF)%string])%list
      (wfile self) (request_version self)
  else self.

(** [BaseHTTPRequestHandler.send_response_only]: unless the request is
    HTTP/0.9, the status line joins the headers buffer. *)
Definition send_response_only (status_line : string) (self : handler)
  : handler :=
  if headed self then
    mkHandler (self_path self) (stdout self)
      (headers_buffer self ++ [(status_line ++ CRLF)%string])%list
      (wfile self) (request_version self)
  else self.

Definition write (data : string) (self : handler) : handler :=
  mkHandler (self_path self) (stdout self) (headers_buffer self)
            (wfile self ++ data) (request_version self).

(** [BaseHTTPRequestHandler.flush_headers]: the buffer is written out and
    emptied. *)
Definition flush_headers (self : handler) : handler :=
  mkHandler (self_path self) (stdout self) []
            (wfile self ++ String.concat "" (headers_buffer self))
            (request_version self).

(** [BaseHTTPRequestHandler.end_headers]: unless the request is HTTP/0.9,
    the blank line joins the buffer and [flush_headers] runs. *)
Definition super_end_headers (self : handler) : handler :=
  if headed self then
    flush_headers
      (mkHandler (self_path self) (stdout self)
         (headers_buffer self ++ [CRLF])%list (wfile self)
         (request_version self))
  else self.

(** [LemmericHTTPRequestHandler.end_headers]. *)
Definition end_headers (self : handler) : handler :=
  let self := send_header "Access-Control-Allow-Origin" "*" self in
  let self := send_header "Access-Control-Allow-Methods" "GET, POST, OPTIONS" self in
  let self := send_header "Access-Control-Allow-Headers" "*" self in
  super_end_headers self.

(** What the static file handler answers for a path: decided by the file
    system, outside the program. *)
Record reply := mkReply {
  status_line : string;
  reply_headers : list (string * string);
  body : string
}.

Section Handler.
Variable netloc_ok : string -> bool.
Variable serve : string -> reply.

(** [SimpleHTTPRequestHandler.do_GET] as this class runs it: the status
    line and the headers of the answer, [self.end_headers()] (the
    override above), then the body. *)
Definition super_do_GET (self : handler) : handler :=
  let r := serve (self_path self) in
  let self := send_response_only (status_line r) self in
  let self :=
    fold_left (fun h kv => send_header (fst kv) (snd kv) h)
              (reply_headers r) self in
  let self := end_headers self in
  write (body r) self.

(** [LemmericHTTPRequestHandler.do_GET]; [None] when [urlparse] raises. *)
Definition do_GET (self : handler) : option handler :=
  match Urllib.urlparse netloc_ok (self_path self) with
  | None => None
  | Some parsed_path =>
      let path := Urllib.path parsed_path in
      let query := Urllib.query parsed_path in
      Some (super_do_GET (route path query self))
  end.
End Handler.

(** ** Startup: the port argument *)

Section Main.
(** The built-in [int] on a string: [None] stands for [ValueError]. *)
Variable int : string -> option Z.

(** Lines 117 to 122 of [main]: the port, and what was printed. *)
Definition main_port (argv : list string) : Z * list string :=
  let port := 8000%Z in
  match argv with
  | _ :: arg :: _ =>
      match int arg with
      | Some n => (n, [])
      | None => (port, ["Invalid port number. Using default port 8000."])
      end
  | _ => (port, [])
  end.
End Main.

(** A reading of [int] on plain decimal literals: surrounding blanks
    (tab to carriage return, space, and the two blanks above 127), a sign,
    digits with single underscores between them, and no more digits than
    the default limit of 4300. *)
Definition is_space (c : ascii) : bool :=
  let n := code c in
  ((9 <=? n) && (n <=? 13)) || (n =? 32) || (n =? 133) || (n =? 160).

Fixpoint count_digits (s : string) : nat :=
  match s with
  | "" => 0
  | String c s' => (if is_digit c then 1 else 0) + count_digits s'
  end.

Fixpoint lstrip_space (s : string) : string :=
  match s with
  | "" => ""
  | String c s' => if is_space c then lstrip_space s' else s
  end.

Fixpoint rstrip_space (s : string) : string :=
  match s with
  | "" => ""
  | String c s' =>
      match rstrip_space s' with
      | "" => if is_space c then "" else String c ""
      | r => String c r
      end
  end.

Fixpoint int_digits (acc : Z) (s : string) : option Z :=
  match s with
  | "" => None
  | String c s' =>
      if is_digit c then
        let acc' := (10 * acc + Z.of_nat (code c - 48))%Z in
        match s' with
        | "" => Some acc'
        | String "_" s'' => int_digits acc' s''
        | _ => int_digits acc' s'
        end
      else None
  end.

Definition int_decimal (s : string) : option Z :=
  if 4300 <? count_digits s then None else
  match rstrip_space (lstrip_space s) with
  | String "+" r => int_digits 0 r
  | String "-" r => option_map Z.opp (int_digits 0 r)
  | r => int_digits 0 r
  end.

(** ** The rule table *)

(** What [/?$] accepts: nothing, a slash, and either of them before the
    newline that ends the string. *)
Definition tail_ok (s : string) : bool :=
  Re.at_end s
  || match s with
     | String c t => Ascii.eqb c "/" && Re.at_end t
     | "" => false
     end.

(** Closed form of [^w/?$]. *)
Definition plain_match (w s : string) : bool :=
  match strip_prefix w s with
  | Some t => tail_ok t
  | None => false
  end.

(** Closed form of [^w(x+)/?$]: the captured text. *)
Definition group_match (w : string) (cs : Re.charset) (s : string)
  : option string :=
  match strip_prefix w s with
  | Some t =>
      let '(g, u) := span (Re.member cs) t in
      if truthy g && tail_ok u then Some g else None
  | None => None
  end.

(** The page a rule rewrites to. *)
Definition target (r : rule) : string :=
  match r with
  | Communities => "/communities.html"
  | Post => "/post.html"
  | User => "/user.html"
  | Community => "/community.html"
  | Search => "/search.html"
  | CreatePost => "/create_post.html"
  | CreateCommunity => "/create-community.html"
  | Inbox => "/inbox.html"
  | Settings => "/settings.html"
  | Root => "/index.html"
  end.

(** The parameter a rule derives from the path, if any. *)
Definition derived (r : rule) (path : string) : option string :=
  match r with
  | Post =>
      match Re.match_ Pattern.post path with
      | Some m => Some ("id=" ++ Re.group1 m)
      | None => None
      end
  | User =>
      match Re.match_ Pattern.user path with
      | Some m => Some ("username=" ++ Urllib.quote (Re.group1 m))
      | None => None
      end
  | Community =>
      match Re.match_ Pattern.community path with
      | Some m => Some ("name=" ++ Urllib.quote (Re.group1 m))
      | None => None
      end
  | _ => None
  end.

(** The new [self.path] of a rule. *)
Definition destination (r : rule) (path query : string) : string :=
  match r with
  | Root => target r
  | _ =>
      match derived r path with
      | Some d =>
          target r ++ "?" ++ d ++ (if truthy query then "&" ++ query else "")
      | None =>
          target r ++ (if truthy query then "?" ++ query else "")
      end
  end.

(** What the diagnostic line shows after the arrow: the page, with the
    derived query when the rule has one. *)
Definition logged (r : rule) (path query : string) : string :=
  match derived r path with
  | Some _ => destination r path query
  | None => target r
  end.

(** The fixed text each rule's path starts with. *)
Definition stem (r : rule) : string :=
  match r with
  | Communities => "/communities"
  | Post => "/post/"
  | User => "/u/"
  | Community => "/c/"
  | Search => "/search"
  | CreatePost => "/create-post"
  | CreateCommunity => "/create-community"
  | Inbox => "/inbox"
  | Settings => "/settings"
  | Root => "/"
  end.

(** The path shapes of the nine pretty-URL rules, without trailing slash. *)
Inductive pretty_path : rule -> string -> Prop :=
| pp_communities : pretty_path Communities "/communities"
| pp_post n :
    truthy n = true -> forall_chars is_digit n = true ->
    pretty_path Post ("/post/" ++ n)
| pp_user name :
    truthy name = true ->
    forall_chars (fun c => negb (mem c "/?")) name = true ->
    pretty_path User ("/u/" ++ name)
| pp_community name :
    truthy name = true ->
    forall_chars (fun c => negb (mem c "/?")) name = true ->
    pretty_path Community ("/c/" ++ name)
| pp_search : pretty_path Search "/search"
| pp_create_post : pretty_path CreatePost "/create-post"
| pp_create_community : pretty_path CreateCommunity "/create-community"
| pp_inbox : pretty_path Inbox "/inbox"
| pp_settings : pretty_path Settings "/settings".

(** A page name as the rules write it: one leading slash, and none of
    the characters [urlparse] removes or splits at. *)
Definition page (base : string) : bool :=
  match base with
  | String "/" (String c _) => negb (Ascii.eqb c "/")
  | _ => false
  end
  && forall_chars (fun c => negb (Urllib.unsafe c) && negb (mem c "#?;")) base.

(** The rules that put a parameter of their own in front of the query. *)
Definition derives (r : rule) : bool :=
  match r with
  | Post | User | Community => true
  | _ => false
  end.

(** [s.endswith(t)]. *)
Fixpoint ends_with (s t : string) : bool :=
  String.eqb s t
  || match s with
     | "" => false
     | String _ s' => ends_with s' t
     end.

(** [t in s]. *)
Fixpoint contains (s t : string) : bool :=
  is_some (strip_prefix t s)
  || match s with
     | "" => false
     | String _ s' => contains s' t
     end.

(** [s[-1]], when there is one. *)
Fixpoint last_char (s : string) : option ascii :=
  match s with
  | "" => None
  | String c "" => Some c
  | String _ s' => last_char s'
  end.

(** The header lines [end_headers] adds. *)
Definition cors_lines : list string :=
  ["Access-Control-Allow-Origin: *" ++ CRLF;
   "Access-Control-Allow-Methods: GET, POST, OPTIONS" ++ CRLF;
   "Access-Control-Allow-Headers: *" ++ CRLF].

Definition header_line (kv : string * string) : string :=
  fst kv ++ ": " ++ snd kv ++ CRLF.

(** ** Further readings of the handler *)

(** The characters a derived parameter is made of: what [quote] lets
    through or writes, and the [=] after the parameter's name. *)
Definition param_char (c : ascii) : bool :=
  Urllib.always_safe c || mem c "/%=".

(** The new query of a rule: the derived parameter, then the original
    query after [&]; or the original query alone. *)
Definition merged_query (r : rule) (path query : string) : string :=
  match derived r path with
  | Some d => d ++ (if truthy query then "&" ++ query else "")
  | None => query
  end.

(** Percent-decoding, the inverse of [Urllib.quote] on its image: the
    bytes of the escapes, then the code points of the UTF-8 pairs. *)
Definition hex_value (c : ascii) : nat :=
  if is_digit c then code c - 48 else code c - 55.

Fixpoint unquote_bytes (s : string) : string :=
  match s with
  | "" => ""
  | String c r =>
      if Ascii.eqb c "%" then
        match r with
        | String h (String l r') =>
            String (ascii_of_nat (16 * hex_value h + hex_value l))
                   (unquote_bytes r')
        | _ => String c (unquote_bytes r)
        end
      else String c (unquote_bytes r)
  end.

Fixpoint utf8_decode (s : string) : string :=
  match s with
  | "" => ""
  | String b r =>
      if code b <? 128 then String b (utf8_decode r)
      else
        match r with
        | String b2 r' =>
            String (ascii_of_nat ((code b - 192) * 64 + (code b2 - 128)))
                   (utf8_decode r')
        | "" => String b ""
        end
  end.

Definition unquote (s : string) : string := utf8_decode (unquote_bytes s).

(** The rewrites the banner of [main] lists (lines 130 to 138): the
    pretty path and the page shown after the arrow, each printed as
    [print("  <path> -> <page>")]. *)
Definition banner_rules : list (string * string) :=
  [("/communities", "communities.html");
   ("/post/123", "post.html?id=123");
   ("/u/username", "user.html?username=username");
   ("/c/community_name", "community.html?name=community_name");
   ("/search", "search.html");
   ("/create-post", "create_post.html");
   ("/create-community", "create-community.html");
   ("/inbox", "inbox.html");
   ("/settings", "settings.html")].

Definition banner_lines : list string :=
  map (fun e => "  " ++ fst e ++ " -> " ++ snd e) banner_rules.

(** ** Sample runs *)

Definition h0 : handler := mkHandler "" [] [] "" "HTTP/1.1".

Example route_post :
  self_path (route "/post/123" "" h0) = "/post.html?id=123".
Proof. reflexivity. Qed.

Example route_post_query :
  route "/post/123/" "sort=new" h0
  = mkHandler "/post.html?id=123&sort=new"
      ["DEV: Rewriting /post/123/ -> /post.html?id=123&sort=new"] [] ""
      "HTTP/1.1".
Proof. reflexivity. Qed.

Example route_user_space :
  self_path (route "/u/jane doe" "" h0) = "/user.html?username=jane%20doe".
Proof. reflexivity. Qed.

Example route_about : route "/about" "x=1" h0 = h0.
Proof. reflexivity. Qed.

Example quote_latin1 :
  Urllib.quote (String (ascii_of_nat 233) "~a/b c") = "%C3%A9~a/b%20c".
Proof. reflexivity. Qed.

Example urlparse_target :
  option_map (fun r => (Urllib.path r, Urllib.query r))
    (Urllib.urlparse (fun _ => true) "/u/jane;x?tab=1#top")
  = Some ("/u/jane", "tab=1").
Proof. reflexivity. Qed.

Example urlparse_samples :
  map (fun s =>
         option_map (fun r => (Urllib.scheme r, Urllib.netloc r, Urllib.path r,
                               Urllib.params r, Urllib.query r))
           (Urllib.urlparse (fun _ => true) s))
    ["//post/1"; "http://h/post/1;p?q"; "/a;b/c;d?x?y";
     String " " ("/post/1" ++ String LF "?a#b")]
  = [Some ("", "post", "/1", "", "");
     Some ("http", "h", "/post/1", "p", "q");
     Some ("", "", "/a;b/c", "d", "x?y");
     Some ("", "", "/post/1", "", "a")].
Proof. reflexivity. Qed.

(** [$] also matches before the newline that ends the string, and
    [[^/?]] takes a newline into the group. *)
Example match_newline :
  Re.match_ Pattern.communities ("/communities" ++ String LF "") = Some []
  /\ Re.match_ Pattern.communities ("/communities" ++ String LF "/") = None
  /\ Re.match_ Pattern.post ("/post/12" ++ String LF "") = Some ["12"]
  /\ Re.match_ Pattern.user ("/u/a" ++ String LF "")
     = Some ["a" ++ String LF ""].
Proof. repeat split; reflexivity. Qed.

Example int_decimal_samples :
  map int_decimal [" 8080"; "-1"; "1_000"; "1__0"; "abc"; ""; "80 80"]
  = [Some 8080%Z; Some (-1)%Z; Some 1000%Z; None; None; None; None].
Proof. reflexivity. Qed.

(** ** Strings *)

Lemma append_nil_r (s : string) : s ++ "" = s.
Proof. induction s; simpl; congruence. Qed.

Lemma append_assoc (a b c : string) : (a ++ b) ++ c = a ++ b ++ c.
Proof. induction a; simpl; congruence. Qed.

Lemma append_cons_assoc (a : string) (c : ascii) (b : string) :
  (a ++ String c "") ++ b = a ++ String c b.
Proof. now rewrite append_assoc. Qed.

Lemma strip_prefix_app (w t : string) : strip_prefix w (w ++ t) = Some t.
Proof.
  induction w as [|c w IH]; simpl; [reflexivity|].
  now rewrite Ascii.eqb_refl.
Qed.

Lemma strip_prefix_inv (w s t : string) :
  strip_prefix w s = Some t -> s = w ++ t.
Proof.
  revert s; induction w as [|c w IH]; simpl; intros s H.
  - congruence.
  - destruct s as [|d s]; [discriminate|].
    destruct (Ascii.eqb_spec c d) as [->|]; [|discriminate].
    now rewrite (IH _ H).
Qed.

Lemma span_inv (p : ascii -> bool) (s r t : string) :
  span p s = (r, t) ->
  s = r ++ t /\ forall_chars p r = true
  /\ match t with String c _ => p c = false | "" => True end.
Proof.
  revert r t; induction s as [|c s IH]; simpl; intros r t H.
  - inversion H; subst; auto.
  - destruct (p c) eqn:E.
    + destruct (span p s) as [r' t'].
      inversion H; subst.
      destruct (IH _ _ eq_refl) as (-> & ? & ?).
      simpl; rewrite E; auto.
    + inversion H; subst; simpl; auto.
Qed.

Lemma span_app (p : ascii -> bool) (r t : string) :
  forall_chars p r = true ->
  match t with String c _ => p c = false | "" => True end ->
  span p (r ++ t) = (r, t).
Proof.
  intros Hr Ht; induction r as [|c r IH]; simpl in *.
  - destruct t; simpl; [reflexivity|]. now rewrite Ht.
  - apply andb_prop in Hr as [-> Hr]. now rewrite (IH Hr).
Qed.

Lemma ends_with_app (a b : string) : ends_with (a ++ b) b = true.
Proof.
  induction a as [|c a IH].
  - cbn [append]. destruct b; cbn [ends_with]; now rewrite String.eqb_refl.
  - cbn [append ends_with]. rewrite IH. apply orb_true_r.
Qed.

(** ** The matcher on the handler's patterns *)

Lemma run_lit (w : string) (r : Re.regex) (pos : nat) (s : string)
  (g : list string) :
  Re.run (Re.lit w ++ r)%list pos s g
  = match strip_prefix w s with
    | Some t => Re.run r (pos + String.length w) t g
    | None => None
    end.
Proof.
  revert pos s; induction w as [|c w IH]; intros pos s.
  - simpl. now rewrite Nat.add_0_r.
  - cbn [Re.lit app Re.run strip_prefix String.length].
    destruct s as [|d s]; [reflexivity|].
    cbn [Re.member]. rewrite (Ascii.eqb_sym d c).
    destruct (Ascii.eqb c d); [|reflexivity].
    rewrite IH. now rewrite Nat.add_succ_r.
Qed.

Lemma run_tail (pos : nat) (s : string) (g : list string) :
  Re.run [Re.Opt (Re.Chr "/"); Re.Eol] pos s g
  = if tail_ok s then Some g else None.
Proof.
  unfold tail_ok.
  destruct s as [|c t]; [reflexivity|].
  cbn [Re.run Re.member].
  destruct (Ascii.eqb c "/") eqn:Hc.
  - apply Ascii.eqb_eq in Hc; subst c.
    destruct t as [|d t]; [reflexivity|].
    cbn [andb]. replace (Re.at_end (String "/" (String d t))) with false
      by reflexivity.
    cbn [orb]. destruct (Re.at_end (String d t)); reflexivity.
  - cbn [andb]. rewrite orb_false_r.
    destruct (Re.at_end (String c t)); reflexivity.
Qed.

Lemma tail_ok_member (cs : Re.charset) (c : ascii) (t : string) :
  Re.member cs "/" = false -> Re.member cs c = true ->
  tail_ok (String c t) = true -> c = LF /\ t = "".
Proof.
  intros Hs Hc H. unfold tail_ok in H.
  destruct (Ascii.eqb_spec c "/") as [->|_]; [congruence|].
  rewrite orb_false_r in H. simpl in H.
  destruct t; [|discriminate].
  now apply Ascii.eqb_eq in H.
Qed.

(** The greedy group followed by [/?$]: the longest run is the only
    candidate, backtracking never finds another match. *)
Lemma plus_tail (cs : Re.charset) (g : list string) :
  Re.member cs "/" = false ->
  forall s taken pos,
    Re.plus cs
      (fun x pos' s' =>
         Re.run [Re.Opt (Re.Chr "/"); Re.Eol] pos' s' (g ++ [x])%list)
      taken pos s
    = let '(r, t) := span (Re.member cs) s in
      if truthy r && tail_ok t then Some (g ++ [(taken ++ r)%string])%list else None.
Proof.
  intros Hs; induction s as [|c s IH]; intros taken pos.
  - reflexivity.
  - cbn [Re.plus span].
    destruct (Re.member cs c) eqn:Hc; [|reflexivity].
    rewrite IH, run_tail.
    destruct (span (Re.member cs) s) as [r t] eqn:Hsp.
    apply span_inv in Hsp as (-> & Hr & Ht).
    cbn [truthy andb].
    destruct r as [|d r].
    + cbn [truthy andb append]. reflexivity.
    + cbn [truthy andb].
      rewrite append_cons_assoc.
      destruct (tail_ok t) eqn:Et; [reflexivity|].
      destruct (tail_ok (String d r ++ t)) eqn:E; [|reflexivity].
      exfalso. simpl in Hr. apply andb_prop in Hr as [Hd _].
      simpl in E.
      destruct (tail_ok_member cs d (r ++ t) Hs Hd E) as [_ Hrt].
      destruct r; [|discriminate]. simpl in Hrt; subst t. discriminate.
Qed.

Lemma match_plain (w s : string) :
  Re.match_ (Re.Bol :: (Re.lit w ++ [Re.Opt (Re.Chr "/"); Re.Eol])%list) s
  = if plain_match w s then Some [] else None.
Proof.
  unfold Re.match_, plain_match. cbn [Re.run Nat.eqb].
  rewrite run_lit.
  destruct (strip_prefix w s); [apply run_tail|reflexivity].
Qed.

Lemma match_group (w : string) (cs : Re.charset) (s : string) :
  Re.member cs "/" = false ->
  Re.match_
    (Re.Bol :: (Re.lit w ++ [Re.Group cs; Re.Opt (Re.Chr "/"); Re.Eol])%list) s
  = match group_match w cs s with Some x => Some [x] | None => None end.
Proof.
  intros Hs. unfold Re.match_, group_match. cbn [Re.run Nat.eqb].
  rewrite run_lit.
  destruct (strip_prefix w s) as [t|]; [|reflexivity].
  cbn [Re.run]. rewrite (plus_tail cs [] Hs).
  destruct (span (Re.member cs) t) as [r u].
  destruct (truthy r && tail_ok u); reflexivity.
Qed.

(** ** The chain as a rule table *)

Lemma rule_matches_closed (r : rule) (path : string) :
  rule_matches r path
  = match r with
    | Communities => plain_match "/communities" path
    | Post => is_some (group_match "/post/" Re.Digit path)
    | User => is_some (group_match "/u/" (Re.NoneOf "/?") path)
    | Community => is_some (group_match "/c/" (Re.NoneOf "/?") path)
    | Search => plain_match "/search" path
    | CreatePost => plain_match "/create-post" path
    | CreateCommunity => plain_match "/create-community" path
    | Inbox => plain_match "/inbox" path
    | Settings => plain_match "/settings" path
    | Root => String.eqb path "/"
    end.
Proof.
  destruct r; cbn [rule_matches]; try reflexivity;
    first
      [ match goal with
        | |- is_some (Re.match_ ?p path) = plain_match ?w path =>
            unfold p; rewrite (match_plain w path);
            destruct (plain_match w path); reflexivity
        end
      | match goal with
        | |- is_some (Re.match_ ?p path) = is_some (group_match ?w ?cs path) =>
            unfold p; rewrite (match_group w cs path) by reflexivity;
            destruct (group_match w cs path); reflexivity
        end ].
Qed.

Lemma derived_closed (r : rule) (path : string) :
  derived r path
  = match r with
    | Post =>
        option_map (fun g => "id=" ++ g) (group_match "/post/" Re.Digit path)
    | User =>
        option_map (fun g => "username=" ++ Urllib.quote g)
          (group_match "/u/" (Re.NoneOf "/?") path)
    | Community =>
        option_map (fun g => "name=" ++ Urllib.quote g)
          (group_match "/c/" (Re.NoneOf "/?") path)
    | _ => None
    end.
Proof.
  destruct r; cbn [derived]; try reflexivity.
  - unfold Pattern.post.
    rewrite (match_group "/post/" Re.Digit path) by reflexivity.
    destruct (group_match "/post/" Re.Digit path); reflexivity.
  - unfold Pattern.user.
    rewrite (match_group "/u/" (Re.NoneOf "/?") path) by reflexivity.
    destruct (group_match "/u/" (Re.NoneOf "/?") path); reflexivity.
  - unfold Pattern.community.
    rewrite (match_group "/c/" (Re.NoneOf "/?") path) by reflexivity.
    destruct (group_match "/c/" (Re.NoneOf "/?") path); reflexivity.
Qed.

(** The [if]/[elif] chain does what the first matching rule says. *)
Lemma route_first_match (path query : string) (self : handler) :
  route path query self
  = match first_match path with
    | None => self
    | Some Root => set_path "/index.html" self
    | Some r =>
        print ("DEV: Rewriting " ++ path ++ " -> " ++ logged r path query)
          (set_path (destination r path query) self)
    end.
Proof.
  unfold route, first_match, rules. cbn [find rule_matches].
  destruct (Re.match_ Pattern.communities path) eqn:E1; cbn [is_some].
  { destruct query; reflexivity. }
  destruct (Re.match_ Pattern.post path) eqn:E2; cbn [is_some].
  { unfold logged, destination, derived; rewrite E2.
    destruct query; cbn; rewrite ?append_nil_r; reflexivity. }
  destruct (Re.match_ Pattern.user path) eqn:E3; cbn [is_some].
  { unfold logged, destination, derived; rewrite E3.
    destruct query; cbn [truthy target append];
      rewrite ?append_assoc, ?append_nil_r; reflexivity. }
  destruct (Re.match_ Pattern.community path) eqn:E4; cbn [is_some].
  { unfold logged, destination, derived; rewrite E4.
    destruct query; cbn [truthy target append];
      rewrite ?append_assoc, ?append_nil_r; reflexivity. }
  destruct (Re.match_ Pattern.search path) eqn:E5; cbn [is_some].
  { destruct query; reflexivity. }
  destruct (Re.match_ Pattern.create_post path) eqn:E6; cbn [is_some].
  { destruct query; reflexivity. }
  destruct (Re.match_ Pattern.create_community path) eqn:E7; cbn [is_some].
  { destruct query; reflexivity. }
  destruct (Re.match_ Pattern.inbox path) eqn:E8; cbn [is_some].
  { destruct query; reflexivity. }
  destruct (Re.match_ Pattern.settings path) eqn:E9; cbn [is_some].
  { destruct query; reflexivity. }
  destruct (String.eqb path "/"); reflexivity.
Qed.

(** ** The rules exclude one another *)

Lemma strip_prefix_both (a b s x y : string) :
  strip_prefix a s = Some x -> strip_prefix b s = Some y ->
  is_some (strip_prefix a b) || is_some (strip_prefix b a) = true.
Proof.
  revert b s; induction a as [|c a IH]; intros b s Ha Hb.
  - reflexivity.
  - destruct b as [|d b]; [reflexivity|].
    destruct s as [|e s]; [discriminate|].
    cbn [strip_prefix] in *.
    destruct (Ascii.eqb_spec c e) as [->|]; [|discriminate].
    destruct (Ascii.eqb_spec d e) as [->|]; [|discriminate].
    rewrite Ascii.eqb_refl. eauto.
Qed.

Lemma plain_match_stem (w s : string) :
  plain_match w s = true -> exists t, strip_prefix w s = Some t.
Proof.
  unfold plain_match. destruct (strip_prefix w s); [eauto|discriminate].
Qed.

Lemma group_match_stem (w : string) (cs : Re.charset) (s : string) :
  is_some (group_match w cs s) = true -> exists t, strip_prefix w s = Some t.
Proof.
  unfold group_match. destruct (strip_prefix w s); [eauto|discriminate].
Qed.

Lemma rule_matches_stem (r : rule) (path : string) :
  rule_matches r path = true -> exists t, strip_prefix (stem r) path = Some t.
Proof.
  rewrite rule_matches_closed.
  destruct r; cbn [stem];
    try apply plain_match_stem; try apply group_match_stem.
  intros H. apply String.eqb_eq in H. subst. now exists "".
Qed.

Lemma root_excludes (r : rule) (path : string) :
  rule_matches Root path = true -> rule_matches r path = true -> r = Root.
Proof.
  intros H. apply String.eqb_eq in H. subst path.
  destruct r; try reflexivity; intros H; vm_compute in H; discriminate.
Qed.

Lemma rule_unique (path : string) (r1 r2 : rule) :
  rule_matches r1 path = true -> rule_matches r2 path = true -> r1 = r2.
Proof.
  intros H1 H2.
  destruct (rule_matches Root path) eqn:HR.
  - rewrite (root_excludes r1 path HR H1). symmetry.
    exact (root_excludes r2 path HR H2).
  - destruct (rule_matches_stem _ _ H1) as [x Hx].
    destruct (rule_matches_stem _ _ H2) as [y Hy].
    pose proof (strip_prefix_both _ _ _ _ _ Hx Hy) as C.
    destruct r1, r2; try reflexivity; try congruence;
      vm_compute in C; discriminate.
Qed.

Lemma first_match_iff (path : string) (r : rule) :
  first_match path = Some r <-> rule_matches r path = true.
Proof.
  unfold first_match. split.
  - intros H. now apply find_some in H.
  - intros H.
    destruct (find (fun r0 => rule_matches r0 path) rules) as [r'|] eqn:E.
    + apply find_some in E as [_ E]. f_equal. eapply rule_unique; eauto.
    + assert (In r rules) as Hin by (destruct r; simpl; tauto).
      apply (find_none _ _ E) in Hin. cbv beta in Hin. congruence.
Qed.

Lemma first_match_none (path : string) :
  first_match path = None <-> forall r, rule_matches r path = false.
Proof.
  split.
  - intros H r. destruct (rule_matches r path) eqn:E; [|reflexivity].
    apply first_match_iff in E. congruence.
  - intros H. destruct (first_match path) as [r|] eqn:E; [|reflexivity].
    apply first_match_iff in E. rewrite H in E. discriminate.
Qed.

(** What a firing rule leaves in [self.path]. *)
Lemma route_destination (r : rule) (path query : string) (self : handler) :
  rule_matches r path = true ->
  self_path (route path query self) = destination r path query.
Proof.
  intros H. apply first_match_iff in H.
  rewrite route_first_match, H. destruct r; reflexivity.
Qed.

(** ** Paths of the pretty shapes *)

Lemma tail_ok_cases (t : string) :
  tail_ok t = true ->
  t = "" \/ t = String LF "" \/ t = "/" \/ t = String "/" (String LF "").
Proof.
  unfold tail_ok. destruct t as [|c t]; [auto|].
  destruct (Ascii.eqb_spec c "/") as [->|Hc].
  - destruct t as [|d [|e t]]; cbn; intros H; try discriminate; auto.
    apply Ascii.eqb_eq in H. subst; auto.
  - cbn [andb]. rewrite orb_false_r. destruct t; cbn; intros H;
      [|discriminate].
    apply Ascii.eqb_eq in H. subst; auto.
Qed.

Lemma mem_app (c : ascii) (a b : string) : mem c (a ++ b) = mem c a || mem c b.
Proof.
  induction a as [|d a IH]; simpl; [reflexivity|].
  now rewrite IH, orb_assoc.
Qed.

Lemma tail_ok_clean (t : string) :
  tail_ok t = true -> mem LF t = false -> t = "" \/ t = "/".
Proof.
  intros H N.
  destruct (tail_ok_cases t H) as [-> | [-> | [-> | ->]]]; auto; discriminate.
Qed.

Lemma plain_match_shape (w tail : string) :
  tail_ok tail = true -> plain_match w (w ++ tail) = true.
Proof. intros H. unfold plain_match. now rewrite strip_prefix_app. Qed.

Lemma group_match_shape (w : string) (cs : Re.charset) (n tail : string) :
  truthy n = true -> forall_chars (Re.member cs) n = true ->
  Re.member cs "/" = false -> tail = "" \/ tail = "/" ->
  group_match w cs (w ++ n ++ tail) = Some n.
Proof.
  intros Hn Hd Hs Ht. unfold group_match.
  rewrite strip_prefix_app, span_app; auto.
  - rewrite Hn. now destruct Ht as [->| ->].
  - now destruct Ht as [->| ->].
Qed.

Lemma group_match_inv (w : string) (cs : Re.charset) (s g : string) :
  group_match w cs s = Some g ->
  exists tail,
    s = w ++ g ++ tail /\ truthy g = true
    /\ forall_chars (Re.member cs) g = true /\ tail_ok tail = true.
Proof.
  unfold group_match. intros H.
  destruct (strip_prefix w s) as [t|] eqn:E; [|discriminate].
  apply strip_prefix_inv in E. subst s.
  destruct (span (Re.member cs) t) as [r u] eqn:Hsp.
  apply span_inv in Hsp as (-> & Hr & _).
  destruct (truthy r) eqn:Hn; [|discriminate].
  destruct (tail_ok u) eqn:Hu; [|discriminate].
  inversion H; subst. eauto.
Qed.

Lemma plain_match_inv (w s : string) :
  plain_match w s = true -> exists tail, s = w ++ tail /\ tail_ok tail = true.
Proof.
  unfold plain_match. intros H.
  destruct (strip_prefix w s) as [t|] eqn:E; [|discriminate].
  apply strip_prefix_inv in E. eauto.
Qed.

(** A pretty path, with or without its trailing slash, is matched by its
    rule, and the rule derives the same parameter from both. *)
Lemma pretty_path_matches (r : rule) (base tail : string) :
  pretty_path r base -> tail = "" \/ tail = "/" ->
  rule_matches r (base ++ tail) = true
  /\ derived r (base ++ tail) = derived r base.
Proof.
  intros Hp Ht.
  assert (tail_ok tail = true) as Hok by (now destruct Ht as [->| ->]).
  rewrite rule_matches_closed, !derived_closed.
  destruct Hp; try (split; [now apply plain_match_shape|reflexivity]).
  - rewrite append_assoc.
    rewrite (group_match_shape "/post/" Re.Digit n tail) by auto.
    replace ("/post/" ++ n) with ("/post/" ++ n ++ "")
      by now rewrite append_nil_r.
    rewrite (group_match_shape "/post/" Re.Digit n "") by auto.
    split; reflexivity.
  - rewrite append_assoc.
    rewrite (group_match_shape "/u/" (Re.NoneOf "/?") name tail) by auto.
    replace ("/u/" ++ name) with ("/u/" ++ name ++ "")
      by now rewrite append_nil_r.
    rewrite (group_match_shape "/u/" (Re.NoneOf "/?") name "") by auto.
    split; reflexivity.
  - rewrite append_assoc.
    rewrite (group_match_shape "/c/" (Re.NoneOf "/?") name tail) by auto.
    replace ("/c/" ++ name) with ("/c/" ++ name ++ "")
      by now rewrite append_nil_r.
    rewrite (group_match_shape "/c/" (Re.NoneOf "/?") name "") by auto.
    split; reflexivity.
Qed.

Lemma pretty_path_derived (r : rule) (base : string) :
  pretty_path r base ->
  derived r base
  = match r with
    | Post => option_map (fun n => "id=" ++ n) (strip_prefix "/post/" base)
    | User =>
        option_map (fun n => "username=" ++ Urllib.quote n)
          (strip_prefix "/u/" base)
    | Community =>
        option_map (fun n => "name=" ++ Urllib.quote n)
          (strip_prefix "/c/" base)
    | _ => None
    end.
Proof.
  intros Hp. rewrite derived_closed.
  destruct Hp; try reflexivity.
  - rewrite strip_prefix_app.
    replace ("/post/" ++ n) with ("/post/" ++ n ++ "")
      by now rewrite append_nil_r.
    now rewrite (group_match_shape "/post/" Re.Digit n "") by auto.
  - rewrite strip_prefix_app.
    replace ("/u/" ++ name) with ("/u/" ++ name ++ "")
      by now rewrite append_nil_r.
    now rewrite (group_match_shape "/u/" (Re.NoneOf "/?") name "") by auto.
  - rewrite strip_prefix_app.
    replace ("/c/" ++ name) with ("/c/" ++ name ++ "")
      by now rewrite append_nil_r.
    now rewrite (group_match_shape "/c/" (Re.NoneOf "/?") name "") by auto.
Qed.

(** Matching is anchored: a path a pretty rule accepts is a pretty path
    followed by what [/?$] accepts. *)
Lemma rule_matches_anchored (r : rule) (path : string) :
  pretty r = true -> rule_matches r path = true ->
  exists base tail,
    pretty_path r base /\ path = base ++ tail /\ tail_ok tail = true.
Proof.
  intros Hr. rewrite rule_matches_closed.
  destruct r; try discriminate; intros H;
    try (apply plain_match_inv in H as (tail & -> & Hok);
         eexists _, tail; split; [constructor|auto]).
  - destruct (group_match "/post/" Re.Digit path) as [g|] eqn:E;
      [|discriminate].
    apply group_match_inv in E as (tail & -> & Hn & Hd & Hok).
    exists ("/post/" ++ g), tail. split; [now constructor|].
    now rewrite append_assoc.
  - destruct (group_match "/u/" (Re.NoneOf "/?") path) as [g|] eqn:E;
      [|discriminate].
    apply group_match_inv in E as (tail & -> & Hn & Hd & Hok).
    exists ("/u/" ++ g), tail. split; [now constructor|].
    now rewrite append_assoc.
  - destruct (group_match "/c/" (Re.NoneOf "/?") path) as [g|] eqn:E;
      [|discriminate].
    apply group_match_inv in E as (tail & -> & Hn & Hd & Hok).
    exists ("/c/" ++ g), tail. split; [now constructor|].
    now rewrite append_assoc.
Qed.

(** ** [urlparse] *)

Lemma forall_chars_app (p : ascii -> bool) (a b : string) :
  forall_chars p (a ++ b) = forall_chars p a && forall_chars p b.
Proof.
  induction a as [|c a IH]; simpl; [reflexivity|].
  now rewrite IH, andb_assoc.
Qed.

Lemma forall_chars_filter (p : ascii -> bool) (s : string) :
  forall_chars p (filter_chars p s) = true.
Proof.
  induction s as [|c s IH]; simpl; [reflexivity|].
  destruct (p c) eqn:E; simpl; [now rewrite E|assumption].
Qed.

Lemma forall_chars_split1 (p : ascii -> bool) (c : ascii) (s a b : string) :
  split1 c s = Some (a, b) -> forall_chars p s = true ->
  forall_chars p a = true /\ forall_chars p b = true.
Proof.
  revert a; induction s as [|d s IH]; simpl; intros a H Hs; [discriminate|].
  apply andb_prop in Hs as [Hd Hs].
  destruct (Ascii.eqb d c).
  - inversion H; subst. auto.
  - destruct (split1 c s) as [[a' b']|]; [|discriminate].
    inversion H; subst. destruct (IH _ eq_refl Hs). simpl. now rewrite Hd.
Qed.

Lemma forall_chars_span (p q : ascii -> bool) (s a b : string) :
  span q s = (a, b) -> forall_chars p s = true ->
  forall_chars p a = true /\ forall_chars p b = true.
Proof.
  intros H Hs. apply span_inv in H as (-> & _ & _).
  rewrite forall_chars_app in Hs. now apply andb_prop in Hs.
Qed.

Lemma forall_chars_splitparams (p : ascii -> bool) (s : string) :
  forall_chars p s = true -> forall_chars p (Urllib.splitparams_path s) = true.
Proof.
  induction s as [|c s IH]; simpl; intros H; [reflexivity|].
  apply andb_prop in H as [Hc Hs].
  destruct (mem "/" s); [simpl; now rewrite Hc, IH|].
  destruct (Ascii.eqb c ";"); [reflexivity|].
  simpl; now rewrite Hc, IH.
Qed.

Lemma forall_chars_cut (p : ascii -> bool) (c : ascii) (s : string) :
  forall_chars p s = true -> forall_chars p (fst (Urllib.cut c s)) = true.
Proof.
  intros H. unfold Urllib.cut.
  destruct (split1 c s) as [[a b]|] eqn:E; [|assumption].
  now destruct (forall_chars_split1 p c s a b E H).
Qed.

Lemma safe_no_newline (s : string) :
  forall_chars (fun c => negb (Urllib.unsafe c)) s = true -> mem LF s = false.
Proof.
  induction s as [|c s IH]; cbn [mem forall_chars]; intros H; [reflexivity|].
  apply andb_prop in H as [Hc Hs]. rewrite (IH Hs), orb_false_r.
  unfold Urllib.unsafe in Hc. rewrite (Ascii.eqb_sym LF c).
  destruct (Ascii.eqb c LF); [|reflexivity].
  now rewrite !orb_true_r in Hc.
Qed.

(** The path [urlparse] returns holds no tab, carriage return or newline. *)
Lemma urlparse_path_safe (netloc_ok : string -> bool) (url : string)
  (parsed : Urllib.ParseResult) :
  Urllib.urlparse netloc_ok url = Some parsed ->
  forall_chars (fun c => negb (Urllib.unsafe c)) (Urllib.path parsed) = true.
Proof.
  unfold Urllib.urlparse.
  set (p := fun c => negb (Urllib.unsafe c)).
  pose proof (forall_chars_filter p (Urllib.lstrip url)) as H0.
  fold (Urllib.remove_unsafe (Urllib.lstrip url)) in H0.
  destruct (Urllib.split_scheme (Urllib.remove_unsafe (Urllib.lstrip url)))
    as [sch u1] eqn:E1.
  assert (forall_chars p u1 = true) as H1.
  { unfold Urllib.split_scheme in E1.
    destruct (split1 ":" (Urllib.remove_unsafe (Urllib.lstrip url)))
      as [[[|c0 w] rest]|] eqn:Es;
      try (inversion E1; subst; assumption).
    destruct (is_alpha c0 && forall_chars Urllib.scheme_char (String c0 w));
      inversion E1; subst; [|assumption].
    now destruct (forall_chars_split1 p _ _ _ _ Es H0). }
  destruct (Urllib.split_authority netloc_ok u1) as [[nl u2]|] eqn:E2;
    [|discriminate].
  assert (forall_chars p u2 = true) as H2.
  { unfold Urllib.split_authority in E2.
    destruct u1 as [|a t]; [inversion E2; subst; assumption|].
    destruct (Ascii.eqb_spec a "/") as [->|Na].
    - destruct t as [|b r]; [inversion E2; subst; assumption|].
      destruct (Ascii.eqb_spec b "/") as [->|Nb].
      + destruct (Urllib.splitnetloc r) as [n' r'] eqn:En.
        destruct (netloc_ok n'); [|discriminate].
        inversion E2; subst.
        simpl in H1.
        now destruct (forall_chars_span p _ r _ _ En H1).
      + destruct b as [[] [] [] [] [] [] [] []];
          try (inversion E2; subst; assumption); now elim Nb.
    - destruct a as [[] [] [] [] [] [] [] []];
        try (inversion E2; subst; assumption); now elim Na. }
  destruct (Urllib.cut "#" u2) as [u3 frag] eqn:E3.
  pose proof (forall_chars_cut p "#" u2 H2) as H3. rewrite E3 in H3.
  destruct (Urllib.cut "?" u3) as [u4 q] eqn:E4.
  pose proof (forall_chars_cut p "?" u3 H3) as H4. rewrite E4 in H4.
  cbn [fst] in H3, H4.
  destruct (existsb (String.eqb sch) Urllib.uses_params && mem ";" u4);
    intros H; inversion H; subst; cbn [Urllib.path];
    [now apply forall_chars_splitparams|assumption].
Qed.

Lemma urlparse_path_no_newline (netloc_ok : string -> bool) (url : string)
  (parsed : Urllib.ParseResult) :
  Urllib.urlparse netloc_ok url = Some parsed ->
  mem LF (Urllib.path parsed) = false.
Proof. intros H. eapply safe_no_newline, urlparse_path_safe, H. Qed.

Lemma filter_chars_app (p : ascii -> bool) (a b : string) :
  filter_chars p (a ++ b) = filter_chars p a ++ filter_chars p b.
Proof.
  induction a as [|c a IH]; simpl; [reflexivity|].
  destruct (p c); simpl; now rewrite IH.
Qed.

Lemma filter_chars_id (p : ascii -> bool) (a : string) :
  forall_chars p a = true -> filter_chars p a = a.
Proof.
  induction a as [|c a IH]; simpl; intros H; [reflexivity|].
  apply andb_prop in H as [-> H]. now rewrite IH.
Qed.

Lemma forall_chars_impl (p q : ascii -> bool) (s : string) :
  (forall c, p c = true -> q c = true) ->
  forall_chars p s = true -> forall_chars q s = true.
Proof.
  intros Hpq; induction s as [|c s IH]; simpl; intros H; [reflexivity|].
  apply andb_prop in H as [Hc Hs]. now rewrite (Hpq _ Hc), IH.
Qed.

Lemma forall_chars_not_mem (p : ascii -> bool) (c : ascii) (s : string) :
  p c = false -> forall_chars p s = true -> mem c s = false.
Proof.
  intros Hc; induction s as [|d s IH]; cbn [mem forall_chars]; intros H;
    [reflexivity|].
  apply andb_prop in H as [Hd Hs]. rewrite (IH Hs), orb_false_r.
  destruct (Ascii.eqb_spec c d) as [->|]; congruence.
Qed.

Lemma split1_app (c : ascii) (base z : string) :
  mem c base = false ->
  split1 c (base ++ z)
  = match split1 c z with
    | Some (a, b) => Some (base ++ a, b)
    | None => None
    end.
Proof.
  induction base as [|d base IH]; cbn [mem append split1]; intros H.
  - destruct (split1 c z) as [[a b]|]; reflexivity.
  - apply orb_false_elim in H as [Hd Hm].
    rewrite Ascii.eqb_sym, Hd, (IH Hm).
    destruct (split1 c z) as [[a b]|]; reflexivity.
Qed.

Lemma split1_absent (c : ascii) (s : string) :
  mem c s = false -> split1 c s = None.
Proof.
  intros H. rewrite <- (append_nil_r s). now rewrite split1_app.
Qed.

Lemma split_scheme_slash (x : string) :
  Urllib.split_scheme (String "/" x) = ("", String "/" x).
Proof.
  unfold Urllib.split_scheme. cbn [split1].
  replace (Ascii.eqb "/" ":") with false by reflexivity.
  destruct (split1 ":" x) as [[a b]|]; reflexivity.
Qed.

Lemma split_authority_single (netloc_ok : string -> bool) (c : ascii)
  (x : string) :
  Ascii.eqb c "/" = false ->
  Urllib.split_authority netloc_ok (String "/" (String c x))
  = Some ("", String "/" (String c x)).
Proof.
  intros H. destruct c as [[] [] [] [] [] [] [] []];
    try reflexivity; discriminate.
Qed.

(** [urlparse] on a page name, alone or followed by a query: the path is
    the page name. *)
Lemma urlparse_page (netloc_ok : string -> bool) (base rest : string) :
  page base = true -> rest = "" \/ (exists y, rest = String "?" y) ->
  exists parsed,
    Urllib.urlparse netloc_ok (base ++ rest) = Some parsed
    /\ Urllib.path parsed = base.
Proof.
  unfold page. intros Hp Hr. apply andb_prop in Hp as [Hh Hc].
  destruct base as [|s0 t]; [discriminate|].
  destruct (Ascii.eqb_spec s0 "/") as [->|N];
    [|destruct s0 as [[] [] [] [] [] [] [] []]; try discriminate; now elim N].
  destruct t as [|c b]; [discriminate|].
  apply negb_true_iff in Hh.
  set (base := String "/" (String c b)) in *.
  assert (forall_chars (fun c => negb (Urllib.unsafe c)) base = true) as Hsafe.
  { revert Hc. apply forall_chars_impl. intros d Hd.
    now apply andb_prop in Hd as [-> _]. }
  assert (forall d, mem d "#?;" = true -> mem d base = false) as Hno.
  { intros d Hd. eapply forall_chars_not_mem; [|exact Hc].
    cbv beta. rewrite Hd. apply andb_false_r. }
  unfold Urllib.urlparse.
  replace (Urllib.lstrip (base ++ rest)) with (base ++ rest) by reflexivity.
  unfold Urllib.remove_unsafe.
  rewrite filter_chars_app, (filter_chars_id _ base Hsafe).
  fold (Urllib.remove_unsafe rest).
  assert (Urllib.remove_unsafe rest = ""
          \/ exists y, Urllib.remove_unsafe rest = String "?" y) as Hr'.
  { destruct Hr as [->|[y ->]]; [now left|right].
    now exists (Urllib.remove_unsafe y). }
  clear Hr. revert Hr'. generalize (Urllib.remove_unsafe rest) as z.
  intros z Hz.
  replace (base ++ z) with (String "/" (String c (b ++ z))) by reflexivity.
  rewrite split_scheme_slash, (split_authority_single _ _ _ Hh).
  change (String "/" (String c (b ++ z))) with (base ++ z).
  assert (existsb (String.eqb "") Urllib.uses_params = true) as ->
    by reflexivity.
  unfold Urllib.cut.
  destruct Hz as [->|[y ->]].
  - rewrite append_nil_r.
    rewrite (split1_absent "#"%char base) by now apply Hno.
    rewrite (split1_absent "?"%char base) by now apply Hno.
    cbn [andb]. rewrite (Hno ";"%char) by reflexivity.
    eexists; split; reflexivity.
  - rewrite (split1_app "#"%char base) by now apply Hno.
    cbn [split1]. replace (Ascii.eqb "?" "#") with false by reflexivity.
    destruct (split1 "#" y) as [[a f]|].
    + rewrite (split1_app "?"%char base) by now apply Hno.
      cbn [split1]. rewrite Ascii.eqb_refl, append_nil_r.
      cbn [andb]. rewrite (Hno ";"%char) by reflexivity.
      eexists; split; reflexivity.
    + rewrite (split1_app "?"%char base) by now apply Hno.
      cbn [split1]. rewrite Ascii.eqb_refl, append_nil_r.
      cbn [andb]. rewrite (Hno ";"%char) by reflexivity.
      eexists; split; reflexivity.
Qed.

Lemma target_page (r : rule) : page (target r) = true.
Proof. destruct r; reflexivity. Qed.

Lemma target_unmatched (r : rule) : first_match (target r) = None.
Proof. destruct r; reflexivity. Qed.

Lemma destination_shape (r : rule) (path query : string) :
  exists rest,
    destination r path query = target r ++ rest
    /\ (rest = "" \/ exists y, rest = String "?" y).
Proof.
  unfold destination.
  destruct r; try (exists ""; rewrite append_nil_r; now auto);
    destruct (derived _ path) as [d|];
    try (eexists; split; [reflexivity|right; eexists; reflexivity]);
    destruct query; cbn [truthy];
    try (exists ""; split; [reflexivity|now left]);
    (eexists; split; [reflexivity|right; eexists; reflexivity]).
Qed.

(** ** Destinations *)

Lemma destination_derived (r : rule) (p1 p2 query : string) :
  derived r p1 = derived r p2 ->
  destination r p1 query = destination r p2 query.
Proof. unfold destination. intros ->. reflexivity. Qed.

Lemma pretty_route (r : rule) (base tail query : string) (self : handler) :
  pretty_path r base -> tail = "" \/ tail = "/" ->
  self_path (route (base ++ tail) query self) = destination r base query.
Proof.
  intros Hp Ht. destruct (pretty_path_matches r base tail Hp Ht) as [Hm Hd].
  rewrite (route_destination r _ _ _ Hm). now apply destination_derived.
Qed.

Lemma derived_derives (r : rule) (path : string) :
  rule_matches r path = true ->
  if derives r then exists d, derived r path = Some d
  else derived r path = None.
Proof.
  rewrite rule_matches_closed, derived_closed.
  destruct r; cbn [derives]; try reflexivity;
    destruct (group_match _ _ path); try discriminate; cbn; eauto.
Qed.

Lemma route_keeps_output (path query : string) (self : handler) :
  headers_buffer (route path query self) = headers_buffer self
  /\ wfile (route path query self) = wfile self.
Proof.
  rewrite route_first_match.
  destruct (first_match path) as [[]|]; split; reflexivity.
Qed.

Lemma route_keeps_version (path query : string) (self : handler) :
  request_version (route path query self) = request_version self.
Proof.
  rewrite route_first_match.
  destruct (first_match path) as [[]|]; reflexivity.
Qed.

Lemma send_headers_fold (hs : list (string * string)) (self : handler) :
  fold_left (fun h kv => send_header (fst kv) (snd kv) h) hs self
  = if headed self then
      mkHandler (self_path self) (stdout self)
        (headers_buffer self ++ map header_line hs)%list (wfile self)
        (request_version self)
    else self.
Proof.
  revert self; induction hs as [|kv hs IH]; intros self; cbn [fold_left map].
  - rewrite app_nil_r. destruct self; now destruct (headed _).
  - rewrite IH. unfold send_header.
    destruct (headed self) eqn:E; [|now rewrite E].
    unfold headed in *. cbn [request_version self_path stdout headers_buffer
                             wfile]. rewrite E.
    now rewrite <- app_assoc.
Qed.

(** ** Last characters *)

Lemma last_char_app (a : string) (c : ascii) (b : string) :
  last_char (a ++ String c b) = last_char (String c b).
Proof.
  induction a as [|d a IH]; [reflexivity|].
  cbn [append]. rewrite <- IH. cbn [last_char].
  destruct (a ++ String c b) eqn:E; [|reflexivity].
  destruct a; discriminate.
Qed.

Lemma last_char_forall (p : ascii -> bool) (s : string) (c : ascii) :
  forall_chars p s = true -> last_char s = Some c -> p c = true.
Proof.
  induction s as [|d s IH]; [discriminate|].
  cbn [forall_chars]. intros H L. apply andb_prop in H as [Hd Hs].
  destruct s as [|e s]; [inversion L; subst; assumption|].
  apply IH; assumption.
Qed.

Lemma append_last_inj (a b : string) (c d : ascii) :
  a ++ String c "" = b ++ String d "" -> a = b /\ c = d.
Proof.
  revert b; induction a as [|x a IH]; intros [|y b]; cbn [append]; intros H.
  - inversion H; auto.
  - inversion H. destruct b; discriminate.
  - inversion H. destruct a; discriminate.
  - inversion H; subst. destruct (IH _ H2) as [-> ->]. auto.
Qed.

Lemma pretty_path_last (r : rule) (base : string) :
  pretty_path r base -> last_char base <> Some "/"%char.
Proof.
  assert (forall w (cs : Re.charset) n,
             truthy n = true -> forall_chars (Re.member cs) n = true ->
             Re.member cs "/" = false ->
             last_char (w ++ n) <> Some "/"%char) as G.
  { intros w cs [|c n] Hn Hd Hs L; [discriminate|].
    rewrite last_char_app in L.
    pose proof (last_char_forall _ _ _ Hd L). congruence. }
  intros Hp; destruct Hp; try (cbn; congruence).
  - now apply (G _ Re.Digit).
  - now apply (G _ (Re.NoneOf "/?")).
  - now apply (G _ (Re.NoneOf "/?")).
Qed.

(** A path with a trailing slash that a pretty rule accepts is a pretty
    path followed by that slash. *)
Lemma slash_anchored (r : rule) (p : string) :
  pretty r = true -> rule_matches r (p ++ "/") = true -> pretty_path r p.
Proof.
  intros Hr Hm.
  destruct (rule_matches_anchored r _ Hr Hm) as (base & tail & Hp & E & Hok).
  pose proof (pretty_path_last r base Hp) as Hl.
  destruct (tail_ok_cases tail Hok) as [-> | [-> | [-> | ->]]].
  - rewrite append_nil_r in E. subst base.
    now rewrite last_char_app in Hl.
  - apply append_last_inj in E as [_ E]. discriminate.
  - apply append_last_inj in E as [-> _]. assumption.
  - change (String "/" (String LF "")) with ("/" ++ String LF "") in E.
    rewrite <- append_assoc in E.
    apply append_last_inj in E as [_ E]. discriminate.
Qed.

(** A request path without trailing slash that a pretty rule accepts is a
    pretty path. *)
Lemma clean_anchored (r : rule) (p : string) :
  pretty r = true -> rule_matches r p = true ->
  mem LF p = false -> ends_with p "/" = false -> pretty_path r p.
Proof.
  intros Hr Hm Hn He.
  destruct (rule_matches_anchored r _ Hr Hm) as (base & tail & Hp & -> & Hok).
  rewrite mem_app in Hn. apply orb_false_elim in Hn as [_ Hn].
  destruct (tail_ok_clean tail Hok Hn) as [-> | ->].
  - now rewrite append_nil_r.
  - now rewrite ends_with_app in He.
Qed.

Lemma contains_app (pre t post : string) : contains (pre ++ t ++ post) t = true.
Proof.
  induction pre as [|c pre IH].
  - cbn [append]. destruct (t ++ post) eqn:E; cbn [contains];
      rewrite <- ?E, strip_prefix_app; reflexivity.
  - cbn [append contains]. rewrite IH. apply orb_true_r.
Qed.

(** * The claims *)

(** C1: a path [/post/<N>], with or without one trailing slash, where
    [<N>] is a non-empty run of digits, is rewritten to
    [/post.html?id=<N>] when the query is empty and to
    [/post.html?id=<N>&<query>] otherwise.  A path [/post/<digits><rest>]
    whose rest does not start with a digit matches no rule and leaves the
    handler as it was, as soon as the digits are missing or the rest is
    not one of the endings [/?$] accepts; so it is for [/post/12a]. *)
Theorem C1_post_rewrite (n tail query : string) (self : handler) :
  truthy n = true -> forall_chars is_digit n = true ->
  tail = "" \/ tail = "/" ->
  self_path (route ("/post/" ++ n ++ tail) query self)
  = (if truthy query then "/post.html?id=" ++ n ++ "&" ++ query
     else "/post.html?id=" ++ n)
  /\ (forall m rest,
         forall_chars is_digit m = true ->
         match rest with String c _ => is_digit c = false | "" => True end ->
         truthy m = false
         \/ (rest <> "" /\ rest <> "/" /\ rest <> String LF ""
             /\ rest <> String "/" (String LF "")) ->
         first_match ("/post/" ++ m ++ rest) = None
         /\ route ("/post/" ++ m ++ rest) query self = self)
  /\ first_match "/post/12a" = None
  /\ route "/post/12a" query self = self.
Proof.
  intros Hn Hd Ht. split; [|split; [|split; [reflexivity|]]].
  - assert (pretty_path Post ("/post/" ++ n)) as Hp by now constructor.
    rewrite <- append_assoc, (pretty_route Post _ _ _ _ Hp Ht).
    unfold destination. rewrite (pretty_path_derived _ _ Hp), strip_prefix_app.
    destruct query; cbn; rewrite ?append_nil_r; reflexivity.
  - intros m rest Hm Hrest Hbad.
    assert (first_match ("/post/" ++ m ++ rest) = None) as Hnone.
    { apply first_match_none. intros r.
      destruct (rule_matches r ("/post/" ++ m ++ rest)) eqn:E; [|reflexivity].
      exfalso.
      destruct (rule_matches_stem _ _ E) as [x Hx].
      pose proof (strip_prefix_both _ _ _ _ _ Hx
                    (strip_prefix_app "/post/" (m ++ rest))) as C.
      destruct r; try (vm_compute in C; discriminate C).
      - rewrite rule_matches_closed in E. unfold group_match in E.
        rewrite strip_prefix_app, (span_app (Re.member Re.Digit) m rest Hm Hrest)
          in E.
        destruct Hbad as [Hm0 | (H1 & H2 & H3 & H4)].
        + now rewrite Hm0 in E.
        + destruct (tail_ok rest) eqn:Hok; [|now rewrite andb_false_r in E].
          destruct (tail_ok_cases rest Hok) as [? | [? | [? | ?]]]; tauto.
      - cbn in E. discriminate E. }
    split; [exact Hnone|]. now rewrite route_first_match, Hnone.
  - rewrite route_first_match. reflexivity.
Qed.

Lemma C1_post_rewrite_witness :
  self_path (route ("/post/" ++ "123" ++ "/") "sort=new" h0)
  = "/post.html?id=123&sort=new"
  /\ (first_match ("/post/" ++ "12" ++ "/edit") = None
      /\ route ("/post/" ++ "12" ++ "/edit") "sort=new" h0 = h0)
  /\ (first_match ("/post/" ++ "" ++ "abc") = None
      /\ route ("/post/" ++ "" ++ "abc") "sort=new" h0 = h0)
  /\ first_match "/post/12a" = None
  /\ route "/post/12a" "sort=new" h0 = h0.
Proof.
  destruct (C1_post_rewrite "123" "/" "sort=new" h0
              eq_refl eq_refl (or_intror eq_refl)) as (H1 & H2 & H3 & H4).
  split; [exact H1|]. split; [|split; [|split; assumption]].
  - apply (H2 "12" "/edit"); [reflexivity|reflexivity|right].
    repeat split; discriminate.
  - apply (H2 "" "abc"); [reflexivity|reflexivity|now left].
Defined.

(** C2: a path [/u/<name>] (and likewise [/c/<name>]), with or without one
    trailing slash, where [<name>] is non-empty and holds no [/] or [?], is
    rewritten to [/user.html?username=<quoted name>] (respectively
    [/community.html?name=<quoted name>]), followed by [&<query>] when the
    query is non-empty; [/u/jane doe] gives
    [/user.html?username=jane%20doe]. *)
Theorem C2_user_community_rewrite (name tail query : string) (self : handler) :
  truthy name = true ->
  forall_chars (fun c => negb (mem c "/?")) name = true ->
  tail = "" \/ tail = "/" ->
  self_path (route ("/u/" ++ name ++ tail) query self)
  = (if truthy query
     then "/user.html?username=" ++ Urllib.quote name ++ "&" ++ query
     else "/user.html?username=" ++ Urllib.quote name)
  /\ self_path (route ("/c/" ++ name ++ tail) query self)
     = (if truthy query
        then "/community.html?name=" ++ Urllib.quote name ++ "&" ++ query
        else "/community.html?name=" ++ Urllib.quote name)
  /\ self_path (route "/u/jane doe" "" self) = "/user.html?username=jane%20doe".
Proof.
  intros Hn Hd Ht. split; [|split; [|reflexivity]].
  - assert (pretty_path User ("/u/" ++ name)) as Hp by now constructor.
    rewrite <- append_assoc, (pretty_route User _ _ _ _ Hp Ht).
    unfold destination. rewrite (pretty_path_derived _ _ Hp), strip_prefix_app.
    destruct query; cbn [option_map truthy target append];
      rewrite ?append_nil_r; reflexivity.
  - assert (pretty_path Community ("/c/" ++ name)) as Hp by now constructor.
    rewrite <- append_assoc, (pretty_route Community _ _ _ _ Hp Ht).
    unfold destination. rewrite (pretty_path_derived _ _ Hp), strip_prefix_app.
    destruct query; cbn [option_map truthy target append];
      rewrite ?append_nil_r; reflexivity.
Qed.

Lemma C2_user_community_rewrite_witness :
  self_path (route ("/u/" ++ "jane doe" ++ "/") "tab=posts" h0)
  = "/user.html?username=jane%20doe&tab=posts"
  /\ self_path (route ("/c/" ++ "jane doe" ++ "/") "tab=posts" h0)
     = "/community.html?name=jane%20doe&tab=posts"
  /\ self_path (route "/u/jane doe" "" h0) = "/user.html?username=jane%20doe".
Proof.
  exact (C2_user_community_rewrite "jane doe" "/" "tab=posts" h0
           eq_refl eq_refl (or_intror eq_refl)).
Defined.

(** C3, as the code has it: when one of the nine pretty-URL rules fires
    and the query is non-empty, the new path is the one the rule gives for
    an empty query, then [?] (or [&] after a derived parameter), then the
    original query, unchanged.  The root rule is apart: it drops the
    query. *)
Theorem C3_query_appended (r : rule) (path query : string) (self : handler) :
  pretty r = true -> rule_matches r path = true -> truthy query = true ->
  self_path (route path query self)
  = self_path (route path "" self)
    ++ (if derives r then "&" else "?") ++ query.
Proof.
  intros Hr Hm Hq.
  rewrite !(route_destination r _ _ _ Hm).
  pose proof (derived_derives r path Hm) as Hd.
  unfold destination.
  destruct r; try discriminate; cbn [derives] in *;
    try (rewrite Hd, Hq; cbn; reflexivity);
    destruct Hd as [d ->]; rewrite Hq; cbn [truthy target append];
    rewrite !append_assoc, ?append_nil_r; reflexivity.
Qed.

Lemma C3_query_appended_witness :
  self_path (route "/u/jane/" "a=1&b=2" h0)
  = self_path (route "/u/jane/" "" h0) ++ "&" ++ "a=1&b=2".
Proof.
  exact (C3_query_appended User "/u/jane/" "a=1&b=2" h0
           eq_refl eq_refl eq_refl).
Defined.

(** C3, as stated, fails on the root rule: the rule fires on [/] with
    query [a=1] and the new path [/index.html] holds no part of it. *)
Lemma C3_root_drops_query :
  rule_matches Root "/" = true
  /\ self_path (route "/" "a=1" h0) = "/index.html"
  /\ ~ (exists pre post,
          self_path (route "/" "a=1" h0) = pre ++ "a=1" ++ post).
Proof.
  split; [reflexivity|split; [reflexivity|]].
  intros (pre & post & E).
  pose proof (contains_app pre "a=1" post) as C.
  rewrite <- E in C. vm_compute in C. discriminate.
Qed.

(** C4: on the path [/] the handler sets [self.path] to [/index.html]
    whatever the query is; the query is not carried over and nothing is
    printed. *)
Theorem C4_root_discards_query (query : string) (self : handler) :
  route "/" query self = set_path "/index.html" self
  /\ self_path (route "/" query self) = "/index.html".
Proof. split; reflexivity. Qed.

(** C5: the path a firing rule leaves in [self.path] parses to a page that
    no rule matches, so routing it again changes nothing. *)
Theorem C5_rewritten_path_falls_through (netloc_ok : string -> bool)
  (r : rule) (path query : string) (self : handler) :
  rule_matches r path = true ->
  exists parsed,
    Urllib.urlparse netloc_ok (self_path (route path query self)) = Some parsed
    /\ first_match (Urllib.path parsed) = None
    /\ route (Urllib.path parsed) (Urllib.query parsed)
         (route path query self)
       = route path query self.
Proof.
  intros Hm. rewrite (route_destination r _ _ _ Hm).
  destruct (destination_shape r path query) as (rest & -> & Hrest).
  destruct (urlparse_page netloc_ok (target r) rest (target_page r) Hrest)
    as (parsed & Hparse & Hpath).
  exists parsed. rewrite Hpath. split; [assumption|].
  split; [apply target_unmatched|].
  rewrite (route_first_match (target r)), target_unmatched. reflexivity.
Qed.

Lemma C5_rewritten_path_falls_through_witness :
  exists parsed,
    Urllib.urlparse (fun _ => true)
      (self_path (route "/post/123" "sort=new" h0)) = Some parsed
    /\ first_match (Urllib.path parsed) = None
    /\ route (Urllib.path parsed) (Urllib.query parsed)
         (route "/post/123" "sort=new" h0)
       = route "/post/123" "sort=new" h0.
Proof.
  exact (C5_rewritten_path_falls_through (fun _ => true) Post
           "/post/123" "sort=new" h0 eq_refl).
Defined.

(** C6: a path that none of the nine pretty-URL rules matches and that is
    not [/] leaves the handler as it was, and the static file handler
    then serves the request target as it came; on a request path a rule
    matches the whole path only, a pretty path or a pretty path and one
    slash, so [/communities/extra] and [/about] are not rewritten. *)
Theorem C6_unmatched_passes_through (netloc_ok : string -> bool)
  (serve : string -> reply) :
  (forall path query self,
      (forall r, pretty r = true -> rule_matches r path = false) ->
      path <> "/" -> route path query self = self)
  /\ (forall self parsed,
         Urllib.urlparse netloc_ok (self_path self) = Some parsed ->
         (forall r, pretty r = true ->
                    rule_matches r (Urllib.path parsed) = false) ->
         Urllib.path parsed <> "/" ->
         do_GET netloc_ok serve self = Some (super_do_GET serve self))
  /\ (forall raw parsed r,
         Urllib.urlparse netloc_ok raw = Some parsed ->
         pretty r = true -> rule_matches r (Urllib.path parsed) = true ->
         exists base,
           pretty_path r base
           /\ (Urllib.path parsed = base \/ Urllib.path parsed = base ++ "/"))
  /\ (forall query self,
         route "/communities/extra" query self = self
         /\ route "/about" query self = self).
Proof.
  assert (forall path query self,
             (forall r, pretty r = true -> rule_matches r path = false) ->
             path <> "/" -> route path query self = self) as Hpass.
  { intros path query self Hnone Hroot.
    rewrite route_first_match.
    assert (first_match path = None) as ->; [|reflexivity].
    apply first_match_none. intros r.
    destruct (pretty r) eqn:Hr; [now apply Hnone|].
    destruct r; try discriminate. now apply String.eqb_neq. }
  split; [exact Hpass|]. split; [|split].
  - intros self parsed Hparse Hnone Hroot.
    unfold do_GET. rewrite Hparse. now rewrite Hpass.
  - intros raw parsed r Hparse Hr Hm.
    pose proof (urlparse_path_no_newline _ _ _ Hparse) as Hn.
    destruct (rule_matches_anchored r _ Hr Hm) as (base & tail & Hp & E & Hok).
    exists base. split; [assumption|].
    rewrite E in Hn |- *. rewrite mem_app in Hn.
    apply orb_false_elim in Hn as [_ Hn].
    destruct (tail_ok_clean tail Hok Hn) as [-> | ->];
      [left; apply append_nil_r|now right].
  - intros query self. rewrite !route_first_match. split; reflexivity.
Qed.

Lemma C6_unmatched_passes_through_witness :
  route "/about" "x=1" h0 = h0
  /\ do_GET (fun _ => true) (fun _ => mkReply "HTTP/1.0 404 File not found" [] "")
       (set_path "/about?x=1" h0)
     = Some (super_do_GET (fun _ => mkReply "HTTP/1.0 404 File not found" [] "")
               (set_path "/about?x=1" h0))
  /\ exists base,
       pretty_path Communities base
       /\ ("/communities/" = base \/ "/communities/" = base ++ "/").
Proof.
  pose proof (C6_unmatched_passes_through (fun _ => true)
                (fun _ => mkReply "HTTP/1.0 404 File not found" [] ""))
    as (H1 & H2 & H3 & _).
  split; [|split].
  - apply H1; [intros [] _; reflexivity|discriminate].
  - apply (H2 (set_path "/about?x=1" h0)
              (Urllib.mkParseResult "" "" "/about" "" "x=1" ""));
      [reflexivity|intros [] _; reflexivity|discriminate].
  - apply (H3 "/communities/?a=1"
              (Urllib.mkParseResult "" "" "/communities/" "" "a=1" "")
              Communities); reflexivity.
Defined.

(** C7: for each of the nine pretty-URL rules, a path with one trailing
    slash that the rule matches is matched without the slash too, and a
    request path without trailing slash that the rule matches is matched
    with one slash added; in both cases the request with the slash and the
    request without it, whatever their handlers held before, are given the
    same new path: the destination of the rule for the path without the
    slash, derived parameter and query included. *)
Theorem C7_trailing_slash_ignored (netloc_ok : string -> bool) (r : rule)
  (p query : string) (self1 self2 : handler) :
  pretty r = true ->
  (rule_matches r (p ++ "/") = true ->
   rule_matches r p = true
   /\ self_path (route (p ++ "/") query self1) = destination r p query
   /\ self_path (route p query self2) = destination r p query)
  /\ (forall raw parsed,
         Urllib.urlparse netloc_ok raw = Some parsed ->
         Urllib.path parsed = p -> ends_with p "/" = false ->
         rule_matches r p = true ->
         rule_matches r (p ++ "/") = true
         /\ self_path (route (p ++ "/") query self1) = destination r p query
         /\ self_path (route p query self2) = destination r p query).
Proof.
  intros Hr.
  assert (pretty_path r p ->
          rule_matches r p = true /\ rule_matches r (p ++ "/") = true
          /\ self_path (route (p ++ "/") query self1) = destination r p query
          /\ self_path (route p query self2) = destination r p query)
    as Hboth.
  { intros Hp.
    destruct (pretty_path_matches r p "" Hp (or_introl eq_refl)) as [H0 _].
    destruct (pretty_path_matches r p "/" Hp (or_intror eq_refl)) as [H1 _].
    rewrite append_nil_r in H0.
    split; [assumption|split; [assumption|split]].
    - exact (pretty_route r p "/" query self1 Hp (or_intror eq_refl)).
    - rewrite <- (append_nil_r p) at 1.
      exact (pretty_route r p "" query self2 Hp (or_introl eq_refl)). }
  split.
  - intros Hm. apply (slash_anchored r p Hr) in Hm.
    destruct (Hboth Hm) as (? & ? & ? & ?). auto.
  - intros raw parsed Hparse Hpath He Hm.
    pose proof (urlparse_path_no_newline _ _ _ Hparse) as Hn.
    rewrite Hpath in Hn.
    destruct (Hboth (clean_anchored r p Hr Hm Hn He)) as (? & ? & ? & ?).
    auto.
Qed.

Lemma C7_trailing_slash_ignored_witness :
  (rule_matches Communities "/communities" = true
   /\ self_path (route ("/communities" ++ "/") "a=1" (set_path "/communities/?a=1" h0))
      = "/communities.html?a=1"
   /\ self_path (route "/communities" "a=1" (set_path "/communities?a=1" h0))
      = "/communities.html?a=1")
  /\ (rule_matches User ("/u/jane" ++ "/") = true
      /\ self_path (route ("/u/jane" ++ "/") "a=1" (set_path "/u/jane/?a=1" h0))
         = "/user.html?username=jane&a=1"
      /\ self_path (route "/u/jane" "a=1" (set_path "/u/jane?a=1" h0))
         = "/user.html?username=jane&a=1").
Proof.
  split.
  - destruct (C7_trailing_slash_ignored (fun _ => true) Communities
                "/communities" "a=1" (set_path "/communities/?a=1" h0)
                (set_path "/communities?a=1" h0) eq_refl) as [H _].
    exact (H eq_refl).
  - destruct (C7_trailing_slash_ignored (fun _ => true) User
                "/u/jane" "a=1" (set_path "/u/jane/?a=1" h0)
                (set_path "/u/jane?a=1" h0) eq_refl) as [_ H].
    exact (H "/u/jane?a=1" (Urllib.mkParseResult "" "" "/u/jane" "" "a=1" "")
             eq_refl eq_refl eq_refl eq_refl).
Defined.

(** C8: the tests of the ten rules, the nine patterns and the root
    comparison, exclude one another: two rules that match the same path
    are the same rule, it is the one the chain picks first, and the new
    path is that rule's destination. *)
Theorem C8_rules_disjoint (path : string) (r1 r2 : rule) :
  rule_matches r1 path = true -> rule_matches r2 path = true ->
  r1 = r2
  /\ first_match path = Some r1
  /\ forall query self,
       self_path (route path query self) = destination r1 path query.
Proof.
  intros H1 H2. split; [exact (rule_unique path r1 r2 H1 H2)|].
  split; [now apply first_match_iff|].
  intros query self. now apply route_destination.
Qed.

Lemma C8_rules_disjoint_witness :
  Community = Community
  /\ first_match "/c/rust/" = Some Community
  /\ forall query self,
       self_path (route "/c/rust/" query self)
       = destination Community "/c/rust/" query.
Proof.
  exact (C8_rules_disjoint "/c/rust/" Community Community eq_refl eq_refl).
Defined.

(** C9: when the first command-line argument is there and [int] rejects
    it, the warning is printed and the port is 8000; when there is no
    argument the port is 8000 and nothing is printed. *)
Theorem C9_invalid_port_defaults (int : string -> option Z)
  (argv : list string) :
  (forall arg, nth_error argv 1 = Some arg -> int arg = None ->
               main_port int argv
               = (8000%Z, ["Invalid port number. Using default port 8000."]))
  /\ (length argv <= 1 -> main_port int argv = (8000%Z, [])).
Proof.
  split.
  - intros arg Harg Hint. destruct argv as [|prog [|a rest]]; try discriminate.
    inversion Harg; subst. unfold main_port. now rewrite Hint.
  - intros Hlen. destruct argv as [|prog [|a rest]]; try reflexivity.
    simpl in Hlen. lia.
Qed.

Lemma C9_invalid_port_defaults_witness :
  main_port int_decimal ["dev-server.py"; "80a"]
  = (8000%Z, ["Invalid port number. Using default port 8000."])
  /\ main_port int_decimal ["dev-server.py"] = (8000%Z, []).
Proof.
  split.
  - destruct (C9_invalid_port_defaults int_decimal ["dev-server.py"; "80a"])
      as [H _].
    exact (H "80a" eq_refl eq_refl).
  - destruct (C9_invalid_port_defaults int_decimal ["dev-server.py"])
      as [_ H].
    apply H. simpl. lia.
Defined.

Lemma headed_iff (self : handler) :
  headed self = true <-> request_version self <> "HTTP/0.9".
Proof.
  unfold headed. rewrite negb_true_iff. apply String.eqb_neq.
Qed.

Lemma end_headers_headed (h : handler) :
  headed h = true ->
  end_headers h
  = mkHandler (self_path h) (stdout h) []
      (wfile h
       ++ String.concat "" (headers_buffer h ++ cors_lines ++ [CRLF])%list)
      (request_version h).
Proof.
  intros H. unfold end_headers, super_end_headers, flush_headers, send_header.
  unfold headed in *. apply negb_true_iff in H.
  repeat progress
    (cbn [negb self_path stdout headers_buffer wfile request_version];
     rewrite ?H).
  rewrite <- !app_assoc. reflexivity.
Qed.

(** C10, as the code has it: for a request of any version but HTTP/0.9,
    the header block [end_headers] writes ends with the three cross-origin
    header lines and the blank line, after whatever was in the buffer; so
    every response of [do_GET] that has a header block, whatever the path,
    the rewrite and the status line, carries them after the static file
    handler's own headers.  The answer to an HTTP/0.9 request has no
    header block. *)
Theorem C10_cors_headers (netloc_ok : string -> bool)
  (serve : string -> reply) (self self' : handler) :
  request_version self <> "HTTP/0.9" ->
  do_GET netloc_ok serve self = Some self' ->
  (forall h, request_version h <> "HTTP/0.9" ->
             end_headers h
             = mkHandler (self_path h) (stdout h) []
                 (wfile h
                  ++ String.concat ""
                       (headers_buffer h ++ cors_lines ++ [CRLF])%list)
                 (request_version h))
  /\ exists r,
       wfile self'
       = (wfile self
          ++ String.concat ""
               (headers_buffer self
                ++ [(status_line r ++ CRLF)%string]
                ++ map header_line (reply_headers r)
                ++ cors_lines ++ [CRLF])%list)
         ++ body r
       /\ headers_buffer self' = [].
Proof.
  intros Hv H.
  split; [intros h Hh; now apply end_headers_headed, headed_iff|].
  unfold do_GET in H.
  destruct (Urllib.urlparse netloc_ok (self_path self)) as [parsed|];
    [|discriminate].
  inversion H; subst self'; clear H.
  set (routed := route (Urllib.path parsed) (Urllib.query parsed) self).
  destruct (route_keeps_output (Urllib.path parsed) (Urllib.query parsed) self)
    as [Hb Hw]. fold routed in Hb, Hw.
  assert (headed routed = true) as Hr.
  { apply headed_iff. unfold routed. now rewrite route_keeps_version. }
  exists (serve (self_path routed)).
  unfold super_do_GET. rewrite send_headers_fold.
  unfold send_response_only. rewrite Hr.
  assert (forall p o b w,
             headed (mkHandler p o b w (request_version routed)) = true)
    as Hmk by (intros; exact Hr).
  rewrite Hmk, end_headers_headed by apply Hmk.
  unfold write.
  cbn [self_path stdout headers_buffer wfile request_version].
  rewrite Hb, Hw, <- !app_assoc. split; reflexivity.
Qed.

Lemma C10_cors_headers_witness :
  exists r,
    wfile (super_do_GET
             (fun _ => mkReply "HTTP/1.0 404 File not found"
                         [("Content-Type", "text/html")] "gone")
             (route "/about" "" (set_path "/about" h0)))
    = (wfile (set_path "/about" h0)
       ++ String.concat ""
            (headers_buffer (set_path "/about" h0)
             ++ [(status_line r ++ CRLF)%string]
             ++ map header_line (reply_headers r)
             ++ cors_lines ++ [CRLF])%list)
      ++ body r
    /\ headers_buffer
         (super_do_GET
            (fun _ => mkReply "HTTP/1.0 404 File not found"
                        [("Content-Type", "text/html")] "gone")
            (route "/about" "" (set_path "/about" h0))) = [].
Proof.
  assert (request_version (set_path "/about" h0) <> "HTTP/0.9") as Hv
    by discriminate.
  exact (proj2 (C10_cors_headers (fun _ => true)
           (fun _ => mkReply "HTTP/1.0 404 File not found"
                       [("Content-Type", "text/html")] "gone")
           (set_path "/about" h0) _ Hv eq_refl)).
Defined.

(** C10, as stated, fails on an HTTP/0.9 request: the request line
    [GET /inbox] reaches [do_GET], which rewrites the path and answers
    with the body alone; no header, so none of the three cross-origin
    headers, is written. *)
Lemma C10_http09_no_headers :
  exists self',
    do_GET (fun _ => true)
      (fun _ => mkReply "HTTP/1.0 200 OK" [("Content-type", "text/html")]
                  "<html>inbox</html>")
      (mkHandler "/inbox" [] [] "" "HTTP/0.9") = Some self'
    /\ self_path self' = "/inbox.html"
    /\ wfile self' = "<html>inbox</html>"
    /\ contains (wfile self') "Access-Control-Allow-Origin" = false.
Proof. eexists. repeat split; reflexivity. Qed.

(** * Further properties of the handler *)

Example banner_lines_text :
  banner_lines
  = ["  /communities -> communities.html";
     "  /post/123 -> post.html?id=123";
     "  /u/username -> user.html?username=username";
     "  /c/community_name -> community.html?name=community_name";
     "  /search -> search.html";
     "  /create-post -> create_post.html";
     "  /create-community -> create-community.html";
     "  /inbox -> inbox.html";
     "  /settings -> settings.html"].
Proof. reflexivity. Qed.

(** ** [quote] *)

Lemma concat_map_app (f : ascii -> string) (a b : string) :
  Urllib.concat_map f (a ++ b) = Urllib.concat_map f a ++ Urllib.concat_map f b.
Proof.
  induction a as [|c a IH]; cbn [append Urllib.concat_map]; [reflexivity|].
  now rewrite IH, append_assoc.
Qed.

Lemma quote_app (a b : string) :
  Urllib.quote (a ++ b) = Urllib.quote a ++ Urllib.quote b.
Proof. unfold Urllib.quote. now rewrite !concat_map_app. Qed.

Lemma quote_byte_chars (b : ascii) :
  forall_chars (fun c => Urllib.always_safe c || mem c "/%")
    (Urllib.quote_byte b) = true.
Proof. destruct b as [[] [] [] [] [] [] [] []]; reflexivity. Qed.

Lemma quote_chars (s : string) :
  forall_chars (fun c => Urllib.always_safe c || mem c "/%") (Urllib.quote s)
  = true.
Proof.
  unfold Urllib.quote. generalize (Urllib.concat_map Urllib.utf8 s) as t.
  induction t as [|b t IH]; cbn [Urllib.concat_map]; [reflexivity|].
  now rewrite forall_chars_app, quote_byte_chars, IH.
Qed.

Lemma unquote_bytes_byte (b : ascii) (rest : string) :
  unquote_bytes (Urllib.quote_byte b ++ rest) = String b (unquote_bytes rest).
Proof. destruct b as [[] [] [] [] [] [] [] []]; reflexivity. Qed.

Lemma utf8_decode_char (c : ascii) (rest : string) :
  utf8_decode (Urllib.utf8 c ++ rest) = String c (utf8_decode rest).
Proof. destruct c as [[] [] [] [] [] [] [] []]; reflexivity. Qed.

Lemma unquote_quote (s : string) : unquote (Urllib.quote s) = s.
Proof.
  unfold unquote, Urllib.quote.
  assert (forall t, unquote_bytes (Urllib.concat_map Urllib.quote_byte t) = t)
    as ->.
  { induction t as [|b t IH]; [reflexivity|].
    cbn [Urllib.concat_map]. now rewrite unquote_bytes_byte, IH. }
  induction s as [|c s IH]; [reflexivity|].
  cbn [Urllib.concat_map]. now rewrite utf8_decode_char, IH.
Qed.

Lemma quote_inj (a b : string) : Urllib.quote a = Urllib.quote b -> a = b.
Proof.
  intros H. rewrite <- (unquote_quote a), <- (unquote_quote b). now rewrite H.
Qed.

(** ** More on strings *)

Lemma length_append (a b : string) :
  String.length (a ++ b) = String.length a + String.length b.
Proof. induction a as [|c a IH]; cbn; [reflexivity|now rewrite IH]. Qed.

Lemma append_inv_tail (a b c : string) : a ++ c = b ++ c -> a = b.
Proof.
  revert b; induction a as [|x a IH]; intros [|y b] H.
  - reflexivity.
  - cbn [append] in H. apply (f_equal String.length) in H.
    cbn [String.length] in H. rewrite length_append in H. lia.
  - cbn [append] in H. apply (f_equal String.length) in H.
    cbn [String.length] in H. rewrite length_append in H. lia.
  - cbn [append] in H. inversion H; subst. f_equal. now apply IH.
Qed.

Lemma group_match_tail (w : string) (cs : Re.charset) (n tail : string) :
  truthy n = true -> forall_chars (Re.member cs) n = true ->
  tail_ok tail = true ->
  match tail with String c _ => Re.member cs c = false | "" => True end ->
  group_match w cs (w ++ n ++ tail) = Some n.
Proof.
  intros Hn Hd Hok Ht. unfold group_match.
  rewrite strip_prefix_app, span_app by assumption.
  now rewrite Hn, Hok.
Qed.

(** A pretty path followed by what [/?$] accepts is matched by its
    rule. *)
Lemma pretty_path_tail_matches (r : rule) (base tail : string) :
  pretty_path r base -> tail_ok tail = true ->
  rule_matches r (base ++ tail) = true.
Proof.
  intros Hp Hok. rewrite rule_matches_closed.
  assert (forall w name,
             truthy name = true ->
             forall_chars (Re.member (Re.NoneOf "/?")) name = true ->
             is_some (group_match w (Re.NoneOf "/?") ((w ++ name) ++ tail))
             = true) as Hseg.
  { intros w name Hn Hd. rewrite append_assoc.
    destruct (tail_ok_cases tail Hok) as [-> | [-> | [-> | ->]]].
    - now rewrite group_match_tail.
    - replace (name ++ String LF "") with ((name ++ String LF "") ++ "")
        by apply append_nil_r.
      rewrite group_match_tail; auto.
      + destruct name; [discriminate|reflexivity].
      + now rewrite forall_chars_app, Hd.
    - now rewrite group_match_tail.
    - now rewrite group_match_tail. }
  destruct Hp; try (now apply plain_match_shape); try (now apply Hseg).
  rewrite append_assoc.
  rewrite group_match_tail; auto.
  destruct (tail_ok_cases tail Hok) as [-> | [-> | [-> | ->]]]; auto.
Qed.

(** ** The query [urlparse] returns *)

Lemma split_scheme_chars (p : ascii -> bool) (url sch rest : string) :
  Urllib.split_scheme url = (sch, rest) ->
  forall_chars p url = true -> forall_chars p rest = true.
Proof.
  unfold Urllib.split_scheme. intros E H.
  destruct (split1 ":" url) as [[[|c0 w] r]|] eqn:Es;
    try (inversion E; subst; assumption).
  destruct (is_alpha c0 && forall_chars Urllib.scheme_char (String c0 w));
    inversion E; subst; [|assumption].
  now destruct (forall_chars_split1 p _ _ _ _ Es H).
Qed.

Lemma split_authority_chars (netloc_ok : string -> bool) (p : ascii -> bool)
  (url nl rest : string) :
  Urllib.split_authority netloc_ok url = Some (nl, rest) ->
  forall_chars p url = true -> forall_chars p rest = true.
Proof.
  unfold Urllib.split_authority. intros E H.
  destruct url as [|a t]; [inversion E; subst; assumption|].
  destruct (Ascii.eqb_spec a "/") as [->|Na].
  - destruct t as [|b r]; [inversion E; subst; assumption|].
    destruct (Ascii.eqb_spec b "/") as [->|Nb].
    + destruct (Urllib.splitnetloc r) as [n' r'] eqn:En.
      destruct (netloc_ok n'); [|discriminate].
      inversion E; subst. cbn [forall_chars] in H.
      apply andb_prop in H as [_ H]. apply andb_prop in H as [_ H].
      now destruct (forall_chars_span p _ r _ _ En H).
    + destruct b as [[] [] [] [] [] [] [] []];
        try (inversion E; subst; assumption); now elim Nb.
  - destruct a as [[] [] [] [] [] [] [] []];
      try (inversion E; subst; assumption); now elim Na.
Qed.

Lemma split1_before (c : ascii) (s a b : string) :
  split1 c s = Some (a, b) -> mem c a = false.
Proof.
  revert a; induction s as [|d s IH]; cbn [split1]; intros a H;
    [discriminate|].
  destruct (Ascii.eqb d c) eqn:E.
  - inversion H; subst. reflexivity.
  - destruct (split1 c s) as [[a' b']|]; [|discriminate].
    inversion H; subst. cbn [mem].
    now rewrite Ascii.eqb_sym, E, (IH _ eq_refl).
Qed.

Lemma not_mem_forall (c : ascii) (s : string) :
  mem c s = false -> forall_chars (fun d => negb (Ascii.eqb d c)) s = true.
Proof.
  induction s as [|d s IH]; cbn [mem forall_chars]; intros H; [reflexivity|].
  apply orb_false_elim in H as [Hd Hs].
  now rewrite Ascii.eqb_sym, Hd, IH.
Qed.

Lemma forall_chars_and (p q : ascii -> bool) (s : string) :
  forall_chars p s = true -> forall_chars q s = true ->
  forall_chars (fun c => p c && q c) s = true.
Proof.
  induction s as [|c s IH]; cbn [forall_chars]; intros Hp Hq; [reflexivity|].
  apply andb_prop in Hp as [-> Hp]. apply andb_prop in Hq as [-> Hq].
  now rewrite IH.
Qed.

(** The query [urlparse] returns holds no tab, carriage return, newline
    or [#]. *)
Lemma urlparse_query_clean (netloc_ok : string -> bool) (url : string)
  (parsed : Urllib.ParseResult) :
  Urllib.urlparse netloc_ok url = Some parsed ->
  forall_chars (fun c => negb (Urllib.unsafe c) && negb (Ascii.eqb c "#"))
    (Urllib.query parsed) = true.
Proof.
  unfold Urllib.urlparse.
  set (p := fun c => negb (Urllib.unsafe c)).
  pose proof (forall_chars_filter p (Urllib.lstrip url)) as H0.
  fold (Urllib.remove_unsafe (Urllib.lstrip url)) in H0.
  destruct (Urllib.split_scheme (Urllib.remove_unsafe (Urllib.lstrip url)))
    as [sch u1] eqn:E1.
  pose proof (split_scheme_chars p _ _ _ E1 H0) as H1.
  destruct (Urllib.split_authority netloc_ok u1) as [[nl u2]|] eqn:E2;
    [|discriminate].
  pose proof (split_authority_chars _ p _ _ _ E2 H1) as H2.
  assert (forall_chars (fun c => p c && negb (Ascii.eqb c "#"))
            (fst (Urllib.cut "#" u2)) = true) as H3.
  { apply forall_chars_and; [now apply forall_chars_cut|].
    unfold Urllib.cut. destruct (split1 "#" u2) as [[a b]|] eqn:Es.
    - apply not_mem_forall. now apply split1_before in Es.
    - apply not_mem_forall. cbn [fst].
      clear -Es. induction u2 as [|d s IH]; [reflexivity|].
      cbn [split1] in Es. cbn [mem]. rewrite Ascii.eqb_sym.
      destruct (Ascii.eqb d "#"); [discriminate|].
      destruct (split1 "#" s) as [[a b]|]; [discriminate|]. now apply IH. }
  destruct (Urllib.cut "#" u2) as [u3 frag]. cbn [fst] in H3.
  assert (forall_chars (fun c => p c && negb (Ascii.eqb c "#"))
            (snd (Urllib.cut "?" u3)) = true) as H4.
  { unfold Urllib.cut. destruct (split1 "?" u3) as [[a b]|] eqn:Es;
      [|reflexivity].
    now destruct (forall_chars_split1 _ _ _ _ _ Es H3). }
  destruct (Urllib.cut "?" u3) as [u4 q]. cbn [snd] in H4.
  destruct (existsb (String.eqb sch) Urllib.uses_params && mem ";" u4);
    intros H; inversion H; subst; exact H4.
Qed.

(** [urlparse] on a page name, alone or followed by a clean query: the
    page name is the path, the query comes back as it is, and the other
    components are empty. *)
Lemma urlparse_page_query (netloc_ok : string -> bool) (base q : string) :
  page base = true ->
  forall_chars (fun c => negb (Urllib.unsafe c) && negb (Ascii.eqb c "#")) q
  = true ->
  Urllib.urlparse netloc_ok (base ++ (if truthy q then "?" ++ q else ""))
  = Some (Urllib.mkParseResult "" "" base "" q "").
Proof.
  unfold page. intros Hp Hq. apply andb_prop in Hp as [Hh Hc].
  destruct base as [|s0 t]; [discriminate|].
  destruct (Ascii.eqb_spec s0 "/") as [->|N];
    [|destruct s0 as [[] [] [] [] [] [] [] []]; try discriminate; now elim N].
  destruct t as [|c b]; [discriminate|].
  apply negb_true_iff in Hh.
  set (base := String "/" (String c b)) in *.
  assert (forall_chars (fun c => negb (Urllib.unsafe c)) base = true) as Hsafe.
  { revert Hc. apply forall_chars_impl. intros d Hd.
    now apply andb_prop in Hd as [-> _]. }
  assert (forall d, mem d "#?;" = true -> mem d base = false) as Hno.
  { intros d Hd. eapply forall_chars_not_mem; [|exact Hc].
    cbv beta. rewrite Hd. apply andb_false_r. }
  assert (forall_chars (fun c => negb (Urllib.unsafe c)) q = true) as Hqs.
  { revert Hq. apply forall_chars_impl. intros d Hd.
    now apply andb_prop in Hd as [-> _]. }
  assert (mem "#" q = false) as Hqh.
  { eapply forall_chars_not_mem; [|exact Hq]. reflexivity. }
  unfold Urllib.urlparse.
  set (rest := if truthy q then "?" ++ q else "").
  replace (Urllib.lstrip (base ++ rest)) with (base ++ rest) by reflexivity.
  assert (Urllib.remove_unsafe (base ++ rest) = base ++ rest) as ->.
  { unfold Urllib.remove_unsafe. apply filter_chars_id.
    rewrite forall_chars_app, Hsafe. unfold rest.
    destruct (truthy q); [|reflexivity]. cbn. exact Hqs. }
  replace (base ++ rest) with (String "/" (String c (b ++ rest)))
    by reflexivity.
  rewrite split_scheme_slash, (split_authority_single _ _ _ Hh).
  change (String "/" (String c (b ++ rest))) with (base ++ rest).
  assert (existsb (String.eqb "") Urllib.uses_params = true) as ->
    by reflexivity.
  unfold Urllib.cut, rest. destruct q as [|q0 q'].
  - cbn [truthy]. rewrite append_nil_r.
    rewrite (split1_absent "#"%char base) by now apply Hno.
    rewrite (split1_absent "?"%char base) by now apply Hno.
    cbn [andb]. rewrite (Hno ";"%char) by reflexivity. reflexivity.
  - cbn [truthy]. set (q := String q0 q') in *.
    assert (split1 "#" (base ++ "?" ++ q) = None) as ->.
    { apply split1_absent. rewrite mem_app, (Hno "#"%char) by reflexivity.
      cbn [append mem orb]. exact Hqh. }
    rewrite (split1_app "?"%char base) by now apply Hno.
    cbn [append split1]. rewrite Ascii.eqb_refl, append_nil_r.
    cbn [andb]. rewrite (Hno ";"%char) by reflexivity. reflexivity.
Qed.

Lemma param_char_digit (c : ascii) : is_digit c = true -> param_char c = true.
Proof.
  intros H. unfold param_char, Urllib.always_safe. rewrite H.
  now rewrite !orb_true_r.
Qed.

Lemma param_char_quote (c : ascii) :
  Urllib.always_safe c || mem c "/%" = true -> param_char c = true.
Proof.
  unfold param_char. intros H. apply orb_prop in H as [-> | H];
    [reflexivity|].
  apply orb_true_iff. right. cbn [mem] in *.
  destruct (Ascii.eqb c "/"); [reflexivity|].
  destruct (Ascii.eqb c "%"); [reflexivity|discriminate].
Qed.

Lemma param_char_clean (c : ascii) :
  param_char c = true ->
  negb (Urllib.unsafe c) && negb (Ascii.eqb c "#") = true.
Proof.
  destruct c as [[] [] [] [] [] [] [] []]; intros H;
    first [reflexivity | discriminate H].
Qed.

(** The parameter a firing rule derives is made of [param_char]s. *)
Lemma derived_chars (r : rule) (path d : string) :
  derived r path = Some d -> forall_chars param_char d = true.
Proof.
  rewrite derived_closed.
  destruct r; try discriminate.
  - destruct (group_match "/post/" Re.Digit path) as [g|] eqn:E;
      [|discriminate].
    apply group_match_inv in E as (_ & _ & _ & Hd & _).
    intros H; inversion H; subst. cbn [append forall_chars].
    replace (param_char "i") with true by reflexivity.
    replace (param_char "d") with true by reflexivity.
    replace (param_char "=") with true by reflexivity.
    cbn [andb]. revert Hd. apply forall_chars_impl, param_char_digit.
  - destruct (group_match "/u/" (Re.NoneOf "/?") path) as [g|];
      [|discriminate].
    intros H; inversion H; subst.
    change (forall_chars param_char ("username=" ++ Urllib.quote g) = true).
    rewrite forall_chars_app. apply andb_true_intro. split; [reflexivity|].
    generalize (quote_chars g). apply forall_chars_impl, param_char_quote.
  - destruct (group_match "/c/" (Re.NoneOf "/?") path) as [g|];
      [|discriminate].
    intros H; inversion H; subst.
    change (forall_chars param_char ("name=" ++ Urllib.quote g) = true).
    rewrite forall_chars_app. apply andb_true_intro. split; [reflexivity|].
    generalize (quote_chars g). apply forall_chars_impl, param_char_quote.
Qed.

Lemma destination_merged (r : rule) (path query : string) :
  pretty r = true ->
  destination r path query
  = target r
    ++ (if truthy (merged_query r path query)
        then "?" ++ merged_query r path query else "").
Proof.
  intros Hr. unfold destination, merged_query. rewrite derived_closed.
  destruct r; try discriminate; try (destruct query; reflexivity);
    destruct (group_match _ _ path) as [g|]; destruct query; reflexivity.
Qed.

Lemma end_headers_unheaded (h : handler) :
  headed h = false -> end_headers h = h.
Proof.
  intros H. unfold end_headers, super_end_headers, send_header.
  now rewrite !H.
Qed.

(** What [super_do_GET] writes: the header block and the body, or the
    body alone for HTTP/0.9. *)
Lemma super_do_GET_closed (serve : string -> reply) (h : handler) :
  super_do_GET serve h
  = if headed h then
      mkHandler (self_path h) (stdout h) []
        ((wfile h
          ++ String.concat ""
               (headers_buffer h
                ++ [(status_line (serve (self_path h)) ++ CRLF)%string]
                ++ map header_line (reply_headers (serve (self_path h)))
                ++ cors_lines ++ [CRLF])%list)
         ++ body (serve (self_path h)))
        (request_version h)
    else write (body (serve (self_path h))) h.
Proof.
  unfold super_do_GET. rewrite send_headers_fold.
  unfold send_response_only.
  destruct (headed h) eqn:E.
  - assert (forall p o b w, headed (mkHandler p o b w (request_version h))
                            = true) as Hmk by (intros; exact E).
    rewrite Hmk, end_headers_headed by apply Hmk.
    unfold write.
    cbn [self_path stdout headers_buffer wfile request_version].
    now rewrite <- !app_assoc.
  - rewrite E. now rewrite end_headers_unheaded.
Qed.

Lemma super_do_GET_output (serve : string -> reply) (h1 h2 : handler) :
  self_path h1 = self_path h2 -> headers_buffer h1 = headers_buffer h2 ->
  wfile h1 = wfile h2 -> request_version h1 = request_version h2 ->
  self_path (super_do_GET serve h1) = self_path (super_do_GET serve h2)
  /\ headers_buffer (super_do_GET serve h1)
     = headers_buffer (super_do_GET serve h2)
  /\ wfile (super_do_GET serve h1) = wfile (super_do_GET serve h2).
Proof.
  intros Hp Hb Hw Hv. rewrite !super_do_GET_closed.
  unfold headed, write. rewrite Hp, Hb, Hw, Hv.
  destruct (negb (String.eqb (request_version h2) "HTTP/0.9"));
    repeat split; reflexivity.
Qed.

(** X1: routing prints one line, [DEV: Rewriting <path> -> ...], exactly
    when one of the nine pretty-URL rules fires, after what was printed
    before; the root rule and an unmatched path print nothing.  After the
    arrow comes the whole new path for the rules that derive a parameter,
    and the bare page, without the query appended to [self.path], for the
    others. *)
Theorem X1_diagnostic_line (path query : string) (self : handler) :
  stdout (route path query self)
  = (stdout self
     ++ match first_match path with
        | Some r =>
            if pretty r
            then [("DEV: Rewriting " ++ path ++ " -> "
                   ++ (if derives r then destination r path query
                       else target r))%string]
            else []
        | None => []
        end)%list.
Proof.
  rewrite route_first_match.
  destruct (first_match path) as [r|] eqn:E;
    [|cbn [stdout]; now rewrite app_nil_r].
  apply first_match_iff in E. pose proof (derived_derives r path E) as Hd.
  unfold logged.
  destruct r; cbn [pretty derives] in *;
    first [ rewrite Hd; reflexivity
          | cbn [set_path stdout]; now rewrite app_nil_r
          | destruct Hd as [d Hd]; rewrite Hd; reflexivity ].
Qed.

(** X2: each of the nine patterns matches exactly the pretty paths of its
    rule followed by nothing, by one slash, or by either of them and one
    final newline ([$] also matches before the newline that ends the
    string); two slashes, or anything else after the path, are refused. *)
Theorem X2_matched_paths (r : rule) (path : string) :
  pretty r = true ->
  rule_matches r path = true
  <-> exists base tail,
        pretty_path r base /\ path = base ++ tail
        /\ (tail = "" \/ tail = String LF "" \/ tail = "/"
            \/ tail = String "/" (String LF "")).
Proof.
  intros Hr. split.
  - intros Hm.
    destruct (rule_matches_anchored r path Hr Hm)
      as (base & tail & Hp & E & Hok).
    exists base, tail. auto using tail_ok_cases.
  - intros (base & tail & Hp & -> & Ht).
    apply pretty_path_tail_matches; [assumption|].
    destruct Ht as [-> | [-> | [-> | ->]]]; reflexivity.
Qed.

Lemma X2_matched_paths_witness :
  rule_matches Post ("/post/42" ++ "/") = true
  /\ ~ (exists base tail,
          pretty_path Communities base /\ "/communities//" = base ++ tail
          /\ (tail = "" \/ tail = String LF "" \/ tail = "/"
              \/ tail = String "/" (String LF ""))).
Proof.
  split.
  - apply (proj2 (X2_matched_paths Post ("/post/42" ++ "/") eq_refl)).
    exists "/post/42", "/". split; [|auto].
    apply (pp_post "42"); reflexivity.
  - intros H.
    apply (proj2 (X2_matched_paths Communities "/communities//" eq_refl)) in H.
    discriminate H.
Defined.

(** X3: when the post, user or community rule fires on a request with a
    query, the new path is the page, [?], the derived parameter, [&] and
    the query; the derived parameter holds only letters, digits and
    [_.-~/%=], so splitting the new query at its first [&] gives back the
    derived parameter and the original query. *)
Theorem X3_derived_parameter_first (r : rule) (path query : string)
  (self : handler) :
  rule_matches r path = true -> derives r = true -> truthy query = true ->
  exists d,
    derived r path = Some d
    /\ self_path (route path query self) = target r ++ "?" ++ d ++ "&" ++ query
    /\ forall_chars param_char d = true
    /\ split1 "&" (d ++ "&" ++ query) = Some (d, query).
Proof.
  intros Hm Hd Hq.
  pose proof (derived_derives r path Hm) as H. rewrite Hd in H.
  destruct H as [d E]. exists d.
  pose proof (derived_chars r path d E) as Hc.
  split; [assumption|]. split; [|split; [assumption|]].
  - rewrite (route_destination r _ _ _ Hm). unfold destination.
    rewrite E, Hq. destruct r; try discriminate; reflexivity.
  - rewrite (split1_app "&"%char d)
      by (eapply forall_chars_not_mem; [|exact Hc]; reflexivity).
    cbn [append split1]. now rewrite Ascii.eqb_refl, append_nil_r.
Qed.

Lemma X3_derived_parameter_first_witness :
  exists d,
    derived User "/u/a&b=c" = Some d
    /\ self_path (route "/u/a&b=c" "x=1" h0)
       = target User ++ "?" ++ d ++ "&" ++ "x=1"
    /\ forall_chars param_char d = true
    /\ split1 "&" (d ++ "&" ++ "x=1") = Some (d, "x=1").
Proof.
  exact (X3_derived_parameter_first User "/u/a&b=c" "x=1" h0
           eq_refl eq_refl eq_refl).
Defined.

(** X4: a [%] in the name of a user or a community is escaped again, as
    [%25], and the text on both sides of it is quoted on its own: a name
    that reaches the handler already percent-encoded is encoded a second
    time. *)
Theorem X4_percent_escaped_again (a b tail query : string) (self : handler) :
  forall_chars (fun c => negb (mem c "/?")) (a ++ "%" ++ b) = true ->
  tail = "" \/ tail = "/" ->
  self_path (route ("/u/" ++ (a ++ "%" ++ b) ++ tail) query self)
  = "/user.html?username=" ++ Urllib.quote a ++ "%25" ++ Urllib.quote b
    ++ (if truthy query then "&" ++ query else "")
  /\ self_path (route ("/c/" ++ (a ++ "%" ++ b) ++ tail) query self)
     = "/community.html?name=" ++ Urllib.quote a ++ "%25" ++ Urllib.quote b
       ++ (if truthy query then "&" ++ query else "").
Proof.
  intros Hd Ht.
  assert (truthy (a ++ "%" ++ b) = true) as Hn by (destruct a; reflexivity).
  assert (Urllib.quote (a ++ "%" ++ b)
          = Urllib.quote a ++ "%25" ++ Urllib.quote b) as Hquote
    by (now rewrite !quote_app).
  split.
  - assert (pretty_path User ("/u/" ++ a ++ "%" ++ b)) as Hp
      by now constructor.
    rewrite <- append_assoc, (pretty_route User _ _ _ _ Hp Ht).
    unfold destination. rewrite (pretty_path_derived _ _ Hp), strip_prefix_app.
    cbn [option_map]. rewrite Hquote. cbn [target append].
    now rewrite !append_assoc.
  - assert (pretty_path Community ("/c/" ++ a ++ "%" ++ b)) as Hp
      by now constructor.
    rewrite <- append_assoc, (pretty_route Community _ _ _ _ Hp Ht).
    unfold destination. rewrite (pretty_path_derived _ _ Hp), strip_prefix_app.
    cbn [option_map]. rewrite Hquote. cbn [target append].
    now rewrite !append_assoc.
Qed.

Lemma X4_percent_escaped_again_witness :
  self_path (route ("/u/" ++ ("jane" ++ "%" ++ "20doe") ++ "") "" h0)
  = "/user.html?username=jane%2520doe"
  /\ self_path (route ("/c/" ++ ("jane" ++ "%" ++ "20doe") ++ "") "" h0)
     = "/community.html?name=jane%2520doe".
Proof.
  exact (X4_percent_escaped_again "jane" "20doe" "" "" h0
           eq_refl (or_introl eq_refl)).
Defined.

Lemma target_inj (r1 r2 : rule) : target r1 = target r2 -> r1 = r2.
Proof. destruct r1, r2; intros H; first [reflexivity | discriminate H]. Qed.

Lemma destination_page (r : rule) (path query : string) :
  exists parsed,
    Urllib.urlparse (fun _ => true) (destination r path query) = Some parsed
    /\ Urllib.path parsed = target r.
Proof.
  destruct (destination_shape r path query) as (rest & -> & Hrest).
  exact (urlparse_page _ (target r) rest (target_page r) Hrest).
Qed.

(** X5: the rewrite loses nothing of a pretty path: two pretty paths,
    of the same rule or not, that are sent to the same new path with the
    same query are the same path. *)
Theorem X5_rewrite_injective (r1 r2 : rule) (b1 b2 query : string)
  (self : handler) :
  pretty_path r1 b1 -> pretty_path r2 b2 ->
  self_path (route b1 query self) = self_path (route b2 query self) ->
  r1 = r2 /\ b1 = b2.
Proof.
  intros H1 H2 E.
  rewrite <- (append_nil_r b1), <- (append_nil_r b2) in E.
  rewrite (pretty_route r1 b1 "" query self H1 (or_introl eq_refl)) in E.
  rewrite (pretty_route r2 b2 "" query self H2 (or_introl eq_refl)) in E.
  assert (r1 = r2) as <-.
  { destruct (destination_page r1 b1 query) as (p1 & Hp1 & Ht1).
    destruct (destination_page r2 b2 query) as (p2 & Hp2 & Ht2).
    rewrite E in Hp1. rewrite Hp1 in Hp2. inversion Hp2; subst p2.
    apply target_inj. congruence. }
  split; [reflexivity|].
  unfold destination in E.
  rewrite (pretty_path_derived _ _ H1), (pretty_path_derived _ _ H2) in E.
  set (tl := if truthy query then "&" ++ query else "") in E.
  inversion H1; subst; inversion H2; subst; try reflexivity;
    rewrite !strip_prefix_app in E; cbn [option_map target append] in E;
    inversion E as [E'];
    rewrite <- ?append_assoc in E'; apply append_inv_tail in E';
    try apply quote_inj in E'; now subst.
Qed.

Lemma X5_rewrite_injective_witness : User = User /\ "/u/jane" = "/u/jane".
Proof.
  exact (X5_rewrite_injective User User "/u/jane" "/u/jane" "a=1" h0
           (pp_user "jane" eq_refl eq_refl) (pp_user "jane" eq_refl eq_refl)
           eq_refl).
Defined.

(** X6: when a pretty-URL rule fires on a request target, the new
    [self.path] parses back to the page as path and to the new query
    (the derived parameter, then the request's query, byte for byte), with
    no scheme, host, parameters or fragment: those of the request target
    are dropped. *)
Theorem X6_rewritten_target_parses (netloc_ok : string -> bool)
  (raw : string) (parsed : Urllib.ParseResult) (r : rule) (self : handler) :
  Urllib.urlparse netloc_ok raw = Some parsed ->
  pretty r = true -> rule_matches r (Urllib.path parsed) = true ->
  Urllib.urlparse netloc_ok
    (self_path (route (Urllib.path parsed) (Urllib.query parsed) self))
  = Some (Urllib.mkParseResult "" "" (target r) ""
            (merged_query r (Urllib.path parsed) (Urllib.query parsed)) "").
Proof.
  intros Hparse Hr Hm.
  rewrite (route_destination r _ _ _ Hm), (destination_merged _ _ _ Hr).
  apply urlparse_page_query; [apply target_page|].
  pose proof (urlparse_query_clean _ _ _ Hparse) as Hq.
  unfold merged_query.
  destruct (derived r (Urllib.path parsed)) as [d|] eqn:Ed; [|assumption].
  rewrite forall_chars_app. apply andb_true_intro. split.
  - generalize (derived_chars _ _ _ Ed).
    apply forall_chars_impl, param_char_clean.
  - destruct (truthy (Urllib.query parsed)); [|reflexivity].
    cbn [append forall_chars]. now rewrite Hq.
Qed.

Lemma X6_rewritten_target_parses_witness :
  Urllib.urlparse (fun _ => true)
    (self_path (route "/u/jane doe" "tab=1" h0))
  = Some (Urllib.mkParseResult "" "" "/user.html" ""
            "username=jane%20doe&tab=1" "").
Proof.
  exact (X6_rewritten_target_parses (fun _ => true)
           "http://host/u/jane doe;v=2?tab=1#top"
           (Urllib.mkParseResult "http" "host" "/u/jane doe" "v=2" "tab=1" "top")
           User h0 eq_refl eq_refl eq_refl).
Defined.

(** X7: a request on which a rule fires gets the response of the direct
    request for the new path: the same bytes are written to the client,
    because the new path falls through the rules and the static file
    handler is asked for the same [self.path]. *)
Theorem X7_pretty_same_as_direct (netloc_ok : string -> bool)
  (serve : string -> reply) (self : handler) (parsed : Urllib.ParseResult)
  (r : rule) :
  Urllib.urlparse netloc_ok (self_path self) = Some parsed ->
  rule_matches r (Urllib.path parsed) = true ->
  exists a b,
    do_GET netloc_ok serve self = Some a
    /\ do_GET netloc_ok serve
         (set_path
            (self_path (route (Urllib.path parsed) (Urllib.query parsed) self))
            self)
       = Some b
    /\ self_path a = self_path b
    /\ headers_buffer a = headers_buffer b
    /\ wfile a = wfile b.
Proof.
  intros Hparse Hm.
  set (routed := route (Urllib.path parsed) (Urllib.query parsed) self).
  unfold do_GET. rewrite Hparse. fold routed.
  cbn [set_path self_path].
  assert (self_path routed
          = destination r (Urllib.path parsed) (Urllib.query parsed)) as Hdest
    by (now apply route_destination).
  destruct (destination_shape r (Urllib.path parsed) (Urllib.query parsed))
    as (rest & Hshape & Hrest).
  destruct (urlparse_page netloc_ok (target r) rest (target_page r) Hrest)
    as (parsed' & Hparse' & Hpath').
  rewrite Hdest, Hshape, Hparse', Hpath'.
  rewrite (route_first_match (target r)), target_unmatched.
  eexists _, _. split; [reflexivity|]. split; [reflexivity|].
  destruct (route_keeps_output (Urllib.path parsed) (Urllib.query parsed) self)
    as [Hb Hw]. fold routed in Hb, Hw.
  pose proof (route_keeps_version (Urllib.path parsed) (Urllib.query parsed)
                self) as Hv. fold routed in Hv.
  apply super_do_GET_output; unfold set_path;
    cbn [self_path headers_buffer wfile request_version]; congruence.
Qed.

Lemma X7_pretty_same_as_direct_witness :
  exists a b,
    do_GET (fun _ => true) (fun p => mkReply "HTTP/1.0 200 OK" [] p)
      (set_path "/inbox/?unread=1" h0) = Some a
    /\ do_GET (fun _ => true) (fun p => mkReply "HTTP/1.0 200 OK" [] p)
         (set_path
            (self_path (route "/inbox/" "unread=1"
                          (set_path "/inbox/?unread=1" h0)))
            (set_path "/inbox/?unread=1" h0))
       = Some b
    /\ self_path a = self_path b
    /\ headers_buffer a = headers_buffer b
    /\ wfile a = wfile b.
Proof.
  exact (X7_pretty_same_as_direct (fun _ => true)
           (fun p => mkReply "HTTP/1.0 200 OK" [] p)
           (set_path "/inbox/?unread=1" h0)
           (Urllib.mkParseResult "" "" "/inbox/" "" "unread=1" "")
           Inbox eq_refl eq_refl).
Defined.

(** X8: the rewrites the startup banner lists are what the handler does:
    the nine lines name the nine pretty-URL rules in the order of the
    chain, and the handler sends each listed path, with no query, to the
    page shown after the arrow. *)
Theorem X8_banner_agrees :
  map (fun e => first_match (fst e)) banner_rules
  = map Some (filter pretty rules)
  /\ Forall (fun e => forall self,
                 self_path (route (fst e) "" self) = "/" ++ snd e)
       banner_rules.
Proof.
  split; [reflexivity|].
  repeat constructor.
Qed.
